(** * Theme preference resolver and vector-limit formatter

    A shallow embedding of [lib/theme] (getStoredTheme, detectPreferredTheme,
    applyTheme, setTheme, initTheme) and of [formatVectorLimit], together with
    the properties of the specification that are about them; then the
    ThemeToggle component that drives the theme functions, and the top-up
    prompt and usage percentages of the projects page.

    The theme functions talk to the browser: [window.localStorage],
    [window.matchMedia] and the class lists of [document.documentElement] and
    [document.body].  The browser is modelled as an explicit machine state, and
    every function of the source is a computation in a state-and-exception
    monad over that state, so that a JavaScript exception leaves the effects
    performed before it in place, as it does in the source. *)

From Stdlib Require Import Floats.SpecFloat.
From stdpp Require Import base option gmap strings list.

Set Warnings "-clear-no-such-hyp".

Open Scope string_scope.

(** ** The browser environment *)

Module Browser.

(** The exceptions the modelled DOM calls can raise. *)
Inductive JsError : Type :=
| ReferenceError      (* an undeclared global ([window]) is read *)
| SecurityError       (* the [localStorage] getter is refused by policy *)
| QuotaExceededError. (* [setItem] could not store the value *)

(** [window.localStorage] is a [Storage] object: a string-to-string map.
    [setItem] raises [QuotaExceededError] when the user agent cannot store
    the new value; whether it can is the user agent's decision, recorded here
    as [accepts_writes]. *)
Record Storage : Type := mkStorage {
  items : gmap string string;
  accepts_writes : bool
}.

(** Reading the attribute [window.localStorage] either yields the storage
    object or raises [SecurityError] (storage disabled by the user, a
    sandboxed or opaque origin). *)
Inductive StorageAccess : Type :=
| Denied
| Granted (st : Storage).

(** A window has its [localStorage] attribute and the method [matchMedia];
    [matchMedia w q] is the value of [window.matchMedia(q).matches]. *)
Record Window : Type := mkWindow {
  localStorage : StorageAccess;
  matchMedia : string → bool
}.

(** The two root elements, each with its [classList] (a set of tokens).  A
    document has both, as the DOM types of [documentElement] and [body]
    say. *)
Record Document : Type := mkDocument {
  documentElement_classList : gset string;
  body_classList : gset string
}.

(** A global is either declared or not: [typeof x === 'undefined'] is the
    test on [None]. *)
Record Env : Type := mkEnv {
  window : option Window;
  document : option Document
}.

(** The host calls a run performs, in order (most recent last). *)
Inductive Event : Type :=
| EvGetItem (key : string)
| EvSetItem (key value : string)
| EvMatchMedia (query : string)
| EvToggleRoot (token : string) (force : bool)
| EvToggleBody (token : string) (force : bool).

Record Machine : Type := mkMachine {
  env : Env;
  trace : list Event
}.

Inductive Outcome (A : Type) : Type :=
| Return (a : A)
| Throw (e : JsError).
Global Arguments Return {A} a.
Global Arguments Throw {A} e.

(** Computations: a result or an exception, and the machine afterwards. *)
Definition M (A : Type) : Type := Machine → Outcome A * Machine.

Definition ret {A} (a : A) : M A := λ s, (Return a, s).

Definition bind {A B} (m : M A) (k : A → M B) : M B :=
  λ s, match m s with
       | (Return a, s') => k a s'
       | (Throw e, s') => (Throw e, s')
       end.

Definition throw {A} (e : JsError) : M A := λ s, (Throw e, s).

(** [try { body } catch { handler }] *)
Definition try_catch {A} (body handler : M A) : M A :=
  λ s, match body s with
       | (Return a, s') => (Return a, s')
       | (Throw _, s') => handler s'
       end.

Definition log (ev : Event) : M unit :=
  λ s, (Return (), mkMachine (env s) (trace s ++ [ev])).

Definition get_env : M Env := λ s, (Return (env s), s).
Definition put_env (e : Env) : M unit :=
  λ s, (Return (), mkMachine e (trace s)).

Global Instance M_ret : MRet M := @ret.
Global Instance M_bind : MBind M := λ A B k m, bind m k.

(** [typeof window === 'undefined'] and [typeof document === 'undefined'] *)
Definition typeof_window_undefined : M bool :=
  e ← get_env; mret (bool_decide (window e = None)).
Definition typeof_document_undefined : M bool :=
  e ← get_env; mret (bool_decide (document e = None)).

(** Evaluating the expression [window.localStorage]. *)
Definition window_localStorage : M Storage :=
  e ← get_env;
  match window e with
  | None => throw ReferenceError
  | Some w =>
      match localStorage w with
      | Denied => throw SecurityError
      | Granted st => mret st
      end
  end.

Definition set_storage (st : Storage) (e : Env) : Env :=
  match window e with
  | None => e
  | Some w => mkEnv (Some (mkWindow (Granted st) (matchMedia w))) (document e)
  end.

(** [window.localStorage.getItem(key)]: the stored string or [null]. *)
Definition localStorage_getItem (key : string) : M (option string) :=
  st ← window_localStorage;
  log (EvGetItem key);;
  mret (items st !! key).

(** [window.localStorage.setItem(key, value)] *)
Definition localStorage_setItem (key value : string) : M unit :=
  st ← window_localStorage;
  log (EvSetItem key value);;
  if accepts_writes st then
    e ← get_env;
    put_env (set_storage
               (mkStorage (<[key := value]> (items st)) (accepts_writes st)) e)
  else throw QuotaExceededError.

(** [window.matchMedia(query).matches] *)
Definition window_matchMedia_matches (query : string) : M bool :=
  e ← get_env;
  match window e with
  | None => throw ReferenceError
  | Some w => log (EvMatchMedia query);; mret (matchMedia w query)
  end.

(** [DOMTokenList.toggle(token, force)]: add when [force], else remove. *)
Definition toggle (token : string) (force : bool) (cl : gset string)
  : gset string :=
  if force then cl ∪ {[token]} else cl ∖ {[token]}.

(** [document.documentElement.classList.toggle(token, force)] *)
Definition documentElement_classList_toggle (token : string) (force : bool)
  : M unit :=
  e ← get_env;
  match document e with
  | None => throw ReferenceError
  | Some d =>
      log (EvToggleRoot token force);;
      put_env (mkEnv (window e)
                 (Some (mkDocument
                          (toggle token force (documentElement_classList d))
                          (body_classList d))))
  end.

(** [document.body.classList.toggle(token, force)] *)
Definition body_classList_toggle (token : string) (force : bool) : M unit :=
  e ← get_env;
  match document e with
  | None => throw ReferenceError
  | Some d =>
      log (EvToggleBody token force);;
      put_env (mkEnv (window e)
                 (Some (mkDocument
                          (documentElement_classList d)
                          (toggle token force (body_classList d)))))
  end.

End Browser.

Import Browser.

(** ** lib/theme *)

Module Theme.

(** [type ThemeMode = 'light' | 'dark'] *)
Inductive ThemeMode : Type := light | dark.

Global Instance ThemeMode_eq_dec : EqDecision ThemeMode.
Proof. solve_decision. Defined.

(** The string a [ThemeMode] value is at run time. *)
Definition encode (t : ThemeMode) : string :=
  match t with light => "light" | dark => "dark" end.

Definition THEME_STORAGE_KEY : string := "vectorlab-theme".

Definition getStoredTheme : M (option ThemeMode) :=
  undef ← typeof_window_undefined;
  if undef : bool then mret None else
  value ← localStorage_getItem THEME_STORAGE_KEY;
  if bool_decide (value = Some "light") then mret (Some light)
  else if bool_decide (value = Some "dark") then mret (Some dark)
  else mret None.

Definition detectPreferredTheme : M ThemeMode :=
  undef ← typeof_window_undefined;
  cond ← (if negb undef
          then window_matchMedia_matches "(prefers-color-scheme: dark)"
          else mret false);
  if cond : bool then mret dark else mret light.

Definition applyTheme (theme : ThemeMode) : M unit :=
  undef ← typeof_document_undefined;
  if undef : bool then mret () else
  documentElement_classList_toggle "dark" (bool_decide (theme = dark));;
  body_classList_toggle "dark" (bool_decide (theme = dark)).

Definition setTheme (theme : ThemeMode) : M unit :=
  undef ← typeof_window_undefined;
  if undef : bool then mret () else
  applyTheme theme;;
  localStorage_setItem THEME_STORAGE_KEY (encode theme).

(** [stored ?? detectPreferredTheme()]: the right operand is evaluated only
    when [stored] is [null]; [!stored] holds exactly for [null], the two
    mode strings being non-empty. *)
Definition initTheme : M ThemeMode :=
  stored ← getStoredTheme;
  theme ← match stored with
          | Some t => mret t
          | None => detectPreferredTheme
          end;
  applyTheme theme;;
  (if bool_decide (stored = None)
   then try_catch
          (localStorage_setItem THEME_STORAGE_KEY (encode theme))
          (mret ())
   else mret ());;
  mret theme.

End Theme.

Import Theme.

(** ** formatVectorLimit *)

Module Format.

(** A JavaScript number is an IEEE 754 double. *)
Definition number : Type := spec_float.

Definition zero : number := S754_zero false.

(** ToBoolean on a number: false for +0, -0 and NaN, true otherwise. *)
Definition truthy (x : number) : bool :=
  match x with
  | S754_zero _ | S754_nan => false
  | S754_infinity _ | S754_finite _ _ _ => true
  end.

Section WithLocale.

(** [new Intl.NumberFormat().format(value)]: the text depends on the
    locale of the host. *)
Variable Intl_NumberFormat_format : number → string.

Definition formatNumber (value : number) : string :=
  Intl_NumberFormat_format value.

(** [limit : number | null]; [!limit] holds for [null] and for a falsy
    number, and [limit < 0] is then not evaluated. *)
Definition formatVectorLimit (current : number) (limit : option number)
  : string :=
  match limit with
  | None => formatNumber current +:+ " / Unlimited"
  | Some l =>
      if negb (truthy l) || SFltb l zero
      then formatNumber current +:+ " / Unlimited"
      else formatNumber current +:+ " / " +:+ formatNumber l
  end.

End WithLocale.

(** A formatter for the examples: it only tells zero from the rest. *)
Definition plain_format (x : number) : string :=
  match x with S754_zero _ => "0" | _ => "n" end.

End Format.

Import Format.

(** ** Observations on a machine state *)

(** The value held under the fixed key, as far as the page can read it. *)
Definition stored_value (e : Env) : option string :=
  w ← window e;
  match localStorage w with
  | Granted st => items st !! THEME_STORAGE_KEY
  | Denied => None
  end.

(** The store can be read: there is no [window], or its [localStorage]
    attribute yields the storage object. *)
Definition storage_readable (e : Env) : bool :=
  match window e with
  | None => true
  | Some w => match localStorage w with Granted _ => true | Denied => false end
  end.

(** The system preference signal. *)
Definition prefers_dark (e : Env) : bool :=
  match window e with
  | None => false
  | Some w => matchMedia w "(prefers-color-scheme: dark)"
  end.

(** Whether the root element and the body carry the "dark" marker. *)
Definition dark_markers (e : Env) : option (bool * bool) :=
  d ← document e;
  Some (bool_decide ("dark" ∈ documentElement_classList d),
        bool_decide ("dark" ∈ body_classList d)).

(** The applied theme state shows mode [m]: both root targets carry the marker
    exactly when [m] is [dark] (nothing to show without a document). *)
Definition applied (e : Env) (m : ThemeMode) : Prop :=
  dark_markers e = (λ _, (bool_decide (m = dark), bool_decide (m = dark)))
                     <$> document e.

(** The two root targets agree on the marker. *)
Definition roots_agree (e : Env) : Prop :=
  match dark_markers e with
  | Some (r, b) => r = b
  | None => True
  end.

(** The events a run appended to the trace. *)
Definition appended (s s' : Machine) (evs : list Event) : Prop :=
  trace s' = (trace s ++ evs)%list.

Definition is_store_write (ev : Event) : bool :=
  match ev with EvSetItem _ _ => true | _ => false end.

Definition is_signal_query (ev : Event) : bool :=
  match ev with EvMatchMedia _ => true | _ => false end.

(** ** Sequences of calls *)

Inductive Call : Type :=
| CallApplyTheme (theme : ThemeMode)
| CallSetTheme (theme : ThemeMode)
| CallInitTheme.

(** One call from the page: its effects stay, whether it returns or raises. *)
Definition exec (c : Call) (s : Machine) : Machine :=
  match c with
  | CallApplyTheme theme => (applyTheme theme s).2
  | CallSetTheme theme => (setTheme theme s).2
  | CallInitTheme => (initTheme s).2
  end.

Definition run_calls (cs : list Call) (s : Machine) : Machine :=
  foldl (λ s c, exec c s) s cs.

(** ** Concrete browser states *)

Definition DARK_QUERY : string := "(prefers-color-scheme: dark)".

(** A page with the given storage access and system signal, no class on
    either root target and an empty trace. *)
Definition page (access : StorageAccess) (system_dark : bool) : Machine :=
  mkMachine
    (mkEnv
       (Some (mkWindow access
                (λ q, system_dark && bool_decide (q = DARK_QUERY))))
       (Some (mkDocument ∅ ∅)))
    [].

(** Storage is blocked for the page: the [localStorage] getter raises. *)
Definition page_storage_denied : Machine := page Denied false.

(** The store is empty and refuses every write. *)
Definition page_quota_exceeded : Machine :=
  page (Granted (mkStorage ∅ false)) false.

(** The store works and holds the given items. *)
Definition page_with (its : gmap string string) (system_dark : bool)
  : Machine :=
  page (Granted (mkStorage its true)) system_dark.

(** A page without a window, as when rendering on a server, with a document
    whose root element is marked dark. *)
Definition windowless : Machine :=
  mkMachine (mkEnv None (Some (mkDocument {["dark"]} ∅))) [].

(** ** Page loads and the store across calls *)

(** The window's store is readable and accepts writes. *)
Definition store_works (e : Env) : Prop :=
  ∃ w st, window e = Some w ∧ localStorage w = Granted st ∧
          accepts_writes st = true.

(** A later page load: local storage is what the earlier page left, while the
    system signal, the document and the trace are those of the new page. *)
Definition reload (s : Machine) (signal : string → bool)
    (d : option Document) : Machine :=
  mkMachine
    (mkEnv ((λ w, mkWindow (localStorage w) signal) <$> window (env s)) d)
    [].

(** What the theme functions may change in a window: nothing but the value
    under [THEME_STORAGE_KEY], and that only into the encoding of a mode. *)
Definition store_frame (e e' : Env) : Prop :=
  match window e with
  | None => window e' = None
  | Some w =>
      ∃ w', window e' = Some w' ∧ matchMedia w' = matchMedia w ∧
        match localStorage w with
        | Denied => localStorage w' = Denied
        | Granted st =>
            ∃ st', localStorage w' = Granted st' ∧
              accepts_writes st' = accepts_writes st ∧
              (∀ k, k ≠ THEME_STORAGE_KEY → items st' !! k = items st !! k) ∧
              (items st' !! THEME_STORAGE_KEY = items st !! THEME_STORAGE_KEY ∨
               ∃ m, items st' !! THEME_STORAGE_KEY = Some (encode m))
        end
  end.

(** What the theme functions may change in a document: nothing but the
    "dark" token of the two root class lists. *)
Definition classes_frame (e e' : Env) : Prop :=
  match document e with
  | None => document e' = None
  | Some d =>
      ∃ d', document e' = Some d' ∧
        ∀ t, t ≠ "dark" →
             (t ∈ documentElement_classList d' ↔
              t ∈ documentElement_classList d) ∧
             (t ∈ body_classList d' ↔ t ∈ body_classList d)
  end.

(** ** The ThemeToggle component *)

Module Toggle.

(** The component's React state ([useState<ThemeMode>('light')]) beside the
    browser it runs in.  [setMode(v)] makes [v] the mode of the next render;
    an update queued before an exception in the same handler still takes
    effect. *)
Record UI : Type := mkUI {
  mode : ThemeMode;
  browser : Machine
}.

(** The first render, before the mount effect has run. *)
Definition first_render (s : Machine) : UI := mkUI light s.

(** [useEffect(() => { const initial = initTheme(); setMode(initial) }, [])] *)
Definition mount_effect (ui : UI) : UI :=
  match initTheme (browser ui) with
  | (Return initial, s') => mkUI initial s'
  | (Throw _, s') => mkUI (mode ui) s'
  end.

(** [handleToggle]: the click handler of the button. *)
Definition handleToggle (ui : UI) : UI :=
  let nextMode := if bool_decide (mode ui = light) then dark else light in
  mkUI nextMode (setTheme nextMode (browser ui)).2.

(** The page after mounting and [n] clicks on the button. *)
Definition after_clicks (n : nat) (s : Machine) : UI :=
  Nat.iter n handleToggle (mount_effect (first_render s)).

(** The button's mode, the applied theme and the stored preference agree. *)
Definition in_sync (ui : UI) : Prop :=
  applied (env (browser ui)) (mode ui) ∧
  stored_value (env (browser ui)) = Some (encode (mode ui)).

End Toggle.

Import Toggle.

(** ** The projects page: top-up prompt and usage percentages *)

Module Projects.

(** A JavaScript string is a sequence of UTF-16 code units. *)
Definition jsstring : Type := list N.

(** The code units of a text written in ASCII. *)
Definition js (s : string) : jsstring :=
  Ascii.N_of_ascii <$> String.list_ascii_of_string s.

(** WhiteSpace and LineTerminator of ECMAScript, the code units that
    [TrimString] removes: TAB, LF, VT, FF, CR, SP, NBSP, the other space
    separators, LS, PS and ZWNBSP. *)
Definition is_white_space (c : N) : bool :=
  bool_decide (c ∈ [9; 10; 11; 12; 13; 32; 160; 5760; 8232; 8233; 8239;
                    8287; 12288; 65279]%N)
  || ((8192 <=? c) && (c <=? 8202))%N.

(** A decimal digit, ['0'] to ['9']. *)
Definition is_digit (c : N) : bool := ((48 <=? c) && (c <=? 57))%N.

Definition digit_value (c : N) : Z := Z.of_N (c - 48).

Fixpoint trim_start (s : jsstring) : jsstring :=
  match s with
  | c :: s' => if is_white_space c then trim_start s' else s
  | [] => []
  end.

(** The longest prefix of decimal digits. *)
Fixpoint leading_digits (s : jsstring) : jsstring :=
  match s with
  | c :: s' => if is_digit c then c :: leading_digits s' else []
  | [] => []
  end.

Definition decimal_value (ds : jsstring) : Z :=
  foldl (λ acc c, 10 * acc + digit_value c)%Z 0%Z ds.

(** The Number for a mathematical integer: the nearest double, ties to even,
    an infinity beyond the range of the doubles. *)
Definition number_of_Z (n : Z) : number := binary_normalize 53 1024 n 0 false.

(** [Number.isNaN] *)
Definition is_nan (x : number) : bool :=
  match x with S754_nan => true | _ => false end.

(** [Number.parseInt(value, 10)]: leading white space is dropped, one sign is
    read, then the longest run of decimal digits.  Without a digit the result
    is NaN; otherwise it is the Number for the signed integer the digits
    denote, a zero taking the sign read. *)
Definition parseInt10 (value : jsstring) : number :=
  let S := trim_start value in
  let sign := if bool_decide (head S = Some 45%N) then (-1)%Z else 1%Z in
  let S := match S with
           | c :: S' => if bool_decide (c = 43%N ∨ c = 45%N) then S' else S
           | [] => S
           end in
  match leading_digits S with
  | [] => S754_nan
  | Z =>
      let mathInt := decimal_value Z in
      if bool_decide (mathInt = 0%Z)
      then S754_zero (bool_decide (sign = (-1)%Z))
      else number_of_Z (sign * mathInt)
  end.

(** What a click on the top-up button ends in. *)
Inductive TopUpOutcome : Type :=
| TopUpNothing
| TopUpToastError (message : string)
| TopUpMutate (quantity : number).

(** [handleTopUpClick], given what [window.prompt] returned ([None] is
    [null], the prompt was cancelled). *)
Definition handleTopUpClick (value : option jsstring) : TopUpOutcome :=
  match value with
  | None | Some [] => TopUpNothing
  | Some v =>
      let quantity := parseInt10 v in
      if is_nan quantity || SFleb quantity zero
      then TopUpToastError "Enter a positive integer quantity"
      else TopUpMutate quantity
  end.

(** The fields of [data.usage] the percentages read. *)
Record Usage : Type := mkUsage {
  total_vectors : number;
  vector_limit : option number;
  project_count : number;
  project_limit : option number
}.

(** The double 100. *)
Definition hundred : number := S754_finite false 7036874417766400 (-46).

(** [Math.min(a, b)]: NaN if either is NaN, and -0 is below +0. *)
Definition Math_min (a b : number) : number :=
  match SFcompare a b with
  | None => S754_nan
  | Some Lt => a
  | Some Gt => b
  | Some Eq =>
      match a, b with
      | S754_zero _, S754_zero true => b
      | _, _ => a
      end
  end.

Section WithRound.

(** [Math.round] of the host. *)
Variable Math_round : number → number.

(** [vectorLimit = usage?.vector_limit ?? null] and
    [vectorLimit
       ? Math.min(100, Math.round((usage!.total_vectors / vectorLimit) * 100))
       : 0], on doubles. *)
Definition vectorPercent (usage : option Usage) : number :=
  let vectorLimit := usage ≫= vector_limit in
  match usage, vectorLimit with
  | Some u, Some l =>
      if truthy l
      then Math_min hundred
             (Math_round
                (SFmul 53 1024 (SFdiv 53 1024 (total_vectors u) l) hundred))
      else zero
  | _, _ => zero
  end.

(** [projectLimit = usage?.project_limit ?? null] and [projectPercent], of
    the same shape. *)
Definition projectPercent (usage : option Usage) : number :=
  let projectLimit := usage ≫= project_limit in
  match usage, projectLimit with
  | Some u, Some l =>
      if truthy l
      then Math_min hundred
             (Math_round
                (SFmul 53 1024 (SFdiv 53 1024 (project_count u) l) hundred))
      else zero
  | _, _ => zero
  end.

End WithRound.

End Projects.

Import Projects.

(** ** One-step equations of the source functions *)

Ltac unfold_monad := unfold mbind, M_bind, bind, mret, M_ret, ret.

Ltac unfold_browser :=
  unfold localStorage_getItem, localStorage_setItem, window_localStorage,
    window_matchMedia_matches, documentElement_classList_toggle,
    body_classList_toggle, typeof_window_undefined,
    typeof_document_undefined, try_catch, log, get_env, put_env, throw,
    set_storage;
  unfold_monad.

Section Equations.

Lemma toggle_elem token force cl :
  token ∈ toggle token force cl ↔ force = true.
Proof. unfold toggle. destruct force; set_solver. Qed.

Lemma toggle_other token force cl t :
  t ≠ token → t ∈ toggle token force cl ↔ t ∈ cl.
Proof. unfold toggle. destruct force; set_solver. Qed.

Lemma toggle_idem token force cl :
  toggle token force (toggle token force cl) = toggle token force cl.
Proof. unfold toggle. destruct force; set_solver. Qed.

Lemma toggle_off_after_on token cl :
  token ∉ toggle token false (toggle token true cl).
Proof. unfold toggle. set_solver. Qed.

Lemma getStoredTheme_eq s :
  getStoredTheme s =
  match window (env s) with
  | None => (Return None, s)
  | Some w =>
      match localStorage w with
      | Denied => (Throw SecurityError, s)
      | Granted st =>
          let value := items st !! THEME_STORAGE_KEY in
          (Return (if bool_decide (value = Some "light") then Some light
                   else if bool_decide (value = Some "dark") then Some dark
                        else None),
           mkMachine (env s) (trace s ++ [EvGetItem THEME_STORAGE_KEY]))
      end
  end.
Proof.
  unfold getStoredTheme. unfold_browser.
  destruct s as [[[[[|st] mm]|] d] tr]; simpl; try done.
  repeat case_bool_decide; done.
Qed.

Lemma detectPreferredTheme_eq s :
  detectPreferredTheme s =
  match window (env s) with
  | None => (Return light, s)
  | Some w =>
      (Return (if matchMedia w "(prefers-color-scheme: dark)"
               then dark else light),
       mkMachine (env s)
         (trace s ++ [EvMatchMedia "(prefers-color-scheme: dark)"]))
  end.
Proof.
  unfold detectPreferredTheme. unfold_browser.
  destruct s as [[[[ls mm]|] d] tr]; simpl; [|done].
  by destruct (mm _).
Qed.

Lemma applyTheme_eq theme s :
  applyTheme theme s =
  match document (env s) with
  | None => (Return (), s)
  | Some d =>
      let force := bool_decide (theme = dark) in
      (Return (),
       mkMachine
         (mkEnv (window (env s))
            (Some (mkDocument
                     (toggle "dark" force (documentElement_classList d))
                     (toggle "dark" force (body_classList d)))))
         (trace s ++ [EvToggleRoot "dark" force; EvToggleBody "dark" force]))
  end.
Proof.
  unfold applyTheme. unfold_browser.
  destruct s as [[w [d|]] tr]; simpl; [|done].
  by rewrite <- app_assoc.
Qed.

Lemma localStorage_setItem_eq key value s :
  localStorage_setItem key value s =
  match window (env s) with
  | None => (Throw ReferenceError, s)
  | Some w =>
      match localStorage w with
      | Denied => (Throw SecurityError, s)
      | Granted st =>
          let s1 := mkMachine (env s) (trace s ++ [EvSetItem key value]) in
          if accepts_writes st
          then (Return (),
                mkMachine
                  (mkEnv
                     (Some (mkWindow
                              (Granted
                                 (mkStorage (<[key := value]> (items st)) true))
                              (matchMedia w)))
                     (document (env s)))
                  (trace s1))
          else (Throw QuotaExceededError, s1)
      end
  end.
Proof.
  unfold_browser.
  destruct s as [[[[[|[its [|]]] mm]|] d] tr]; simpl; done.
Qed.

Lemma setTheme_eq theme s :
  setTheme theme s =
  match window (env s) with
  | None => (Return (), s)
  | Some _ =>
      localStorage_setItem THEME_STORAGE_KEY (encode theme)
        (applyTheme theme s).2
  end.
Proof.
  unfold setTheme. unfold typeof_window_undefined, get_env.
  unfold mbind, M_bind, bind, mret, M_ret, ret.
  destruct s as [[[w|] d] tr]; simpl; [|done].
  rewrite applyTheme_eq. by destruct d.
Qed.

(** [applyTheme] never raises: its result is always [Return ()]. *)
Lemma applyTheme_returns theme s : (applyTheme theme s).1 = Return ().
Proof. rewrite applyTheme_eq. by destruct (document (env s)). Qed.

Lemma initTheme_read_throws s e s1 :
  getStoredTheme s = (Throw e, s1) → initTheme s = (Throw e, s1).
Proof. intros H. unfold initTheme. unfold_monad. by rewrite H. Qed.

Lemma initTheme_stored s t s1 :
  getStoredTheme s = (Return (Some t), s1) →
  initTheme s = (Return t, (applyTheme t s1).2).
Proof.
  intros H. unfold initTheme. unfold_monad. rewrite H. simpl.
  pose proof (applyTheme_returns t s1) as Ha.
  destruct (applyTheme t s1) as [o s2]. simpl in Ha. by subst o.
Qed.

Lemma initTheme_unstored s s1 t s2 :
  getStoredTheme s = (Return None, s1) →
  detectPreferredTheme s1 = (Return t, s2) →
  initTheme s =
  (Return t,
   (try_catch (localStorage_setItem THEME_STORAGE_KEY (encode t)) (mret ())
      (applyTheme t s2).2).2).
Proof.
  intros H1 H2. unfold initTheme. unfold_monad. rewrite H1. simpl.
  rewrite H2.
  pose proof (applyTheme_returns t s2) as Ha.
  destruct (applyTheme t s2) as [o s3]. simpl in Ha. subst o. simpl.
  unfold try_catch, mret, M_ret, ret.
  destruct (localStorage_setItem _ _ s3) as [[[]|e] s4]; done.
Qed.

End Equations.

(** ** Frame lemmas: what each call leaves alone *)

Section Frames.

Lemma getStoredTheme_env s : env (getStoredTheme s).2 = env s.
Proof.
  rewrite getStoredTheme_eq.
  destruct (window (env s)) as [w|]; [|done].
  by destruct (localStorage w).
Qed.

Lemma detectPreferredTheme_env s : env (detectPreferredTheme s).2 = env s.
Proof. rewrite detectPreferredTheme_eq. by destruct (window (env s)). Qed.

(** Detection always produces a mode, the one the signal reports. *)
Lemma detectPreferredTheme_returns s :
  (detectPreferredTheme s).1 =
  Return (if prefers_dark (env s) then dark else light).
Proof.
  rewrite detectPreferredTheme_eq. unfold prefers_dark.
  by destruct (window (env s)).
Qed.

Lemma applyTheme_window theme s :
  window (env (applyTheme theme s).2) = window (env s).
Proof. rewrite applyTheme_eq. by destruct (document (env s)). Qed.

Lemma applyTheme_markers theme s :
  dark_markers (env (applyTheme theme s).2) =
  (λ _, (bool_decide (theme = dark), bool_decide (theme = dark)))
    <$> document (env s).
Proof.
  rewrite applyTheme_eq. unfold dark_markers.
  destruct s as [[w [d|]] tr]; simpl; [|done].
  do 2 f_equal; apply bool_decide_ext; rewrite toggle_elem;
    apply bool_decide_eq_true.
Qed.

Lemma applyTheme_document_is_Some theme s :
  is_Some (document (env (applyTheme theme s).2)) ↔
  is_Some (document (env s)).
Proof.
  rewrite applyTheme_eq.
  destruct s as [[w [d|]] tr]; simpl; [|done].
  split; eauto.
Qed.

Lemma localStorage_setItem_document key value s :
  document (env (localStorage_setItem key value s).2) = document (env s).
Proof.
  rewrite localStorage_setItem_eq.
  destruct (window (env s)) as [w|]; [|done].
  destruct (localStorage w) as [|st]; [done|].
  by destruct (accepts_writes st).
Qed.

Lemma guarded_setItem_document key value s :
  document (env (try_catch (localStorage_setItem key value) (mret ()) s).2)
  = document (env s).
Proof.
  pose proof (localStorage_setItem_document key value s) as H.
  unfold try_catch, mret, M_ret, ret.
  by destruct (localStorage_setItem key value s) as [[[]|e] s1].
Qed.

Lemma dark_markers_document e e' :
  document e' = document e → dark_markers e' = dark_markers e.
Proof. unfold dark_markers. by intros ->. Qed.

Lemma roots_agree_after_markers e (o : option Document) (b : bool) :
  dark_markers e = (λ _, (b, b)) <$> o → roots_agree e.
Proof. unfold roots_agree. intros ->. by destruct o. Qed.

End Frames.

Section ApplyTheme.

(** C7: applyTheme is idempotent (running it twice with the same mode gives
    the same outcome and the same environment as running it once), and
    applyTheme(dark) followed by applyTheme(light) leaves both root targets
    without the "dark" marker. *)
Theorem applyTheme_idempotent_and_round_trip :
  (∀ m s,
      ((applyTheme m;; applyTheme m) s).1 = (applyTheme m s).1 ∧
      env ((applyTheme m;; applyTheme m) s).2 = env (applyTheme m s).2) ∧
  (∀ s,
      dark_markers (env ((applyTheme dark;; applyTheme light) s).2) =
      (λ _, (false, false)) <$> document (env s)).
Proof.
  split.
  - intros m [[w [d|]] tr]; unfold_monad;
      rewrite (applyTheme_eq m (mkMachine _ _)); simpl; [|done].
    by rewrite !toggle_idem.
  - intros s. unfold_monad.
    pose proof (applyTheme_returns dark s) as Hr.
    pose proof (applyTheme_document_is_Some dark s) as Hs.
    destruct (applyTheme dark s) as [o s1]. simpl in *. subst o.
    rewrite applyTheme_markers.
    destruct (document (env s)) as [d|].
    + destruct Hs as [_ [d1 ->]]; [eauto|done].
    + destruct (document (env s1)); [|done].
      destruct Hs as [[? ?] _]; [eauto|done].
Qed.

(** C8: applyTheme(m) leaves the window, and with it the value stored under
    the fixed key, unchanged; with a document it puts the "dark" marker on
    both root targets exactly when m is dark and changes no other class;
    without a document it changes nothing at all. *)
Theorem applyTheme_only_sets_marker m s :
  let s' := (applyTheme m s).2 in
  (applyTheme m s).1 = Return () ∧
  window (env s') = window (env s) ∧
  stored_value (env s') = stored_value (env s) ∧
  match document (env s) with
  | None => s' = s
  | Some d =>
      ∃ d', document (env s') = Some d' ∧
        ("dark" ∈ documentElement_classList d' ↔ m = dark) ∧
        ("dark" ∈ body_classList d' ↔ m = dark) ∧
        ∀ t, t ≠ "dark" →
             (t ∈ documentElement_classList d' ↔
              t ∈ documentElement_classList d) ∧
             (t ∈ body_classList d' ↔ t ∈ body_classList d)
  end.
Proof.
  simpl. split; [apply applyTheme_returns|].
  split; [apply applyTheme_window|].
  split; [unfold stored_value; by rewrite applyTheme_window|].
  rewrite applyTheme_eq.
  destruct (document (env s)) as [d|]; simpl; [|done].
  eexists. split; [done|]. simpl.
  rewrite !toggle_elem, !bool_decide_eq_true.
  repeat split; try tauto; by apply toggle_other.
Qed.

Lemma exec_roots_agree c s :
  roots_agree (env s) → roots_agree (env (exec c s)).
Proof.
  intros Hs. destruct c as [m|m|]; simpl.
  - eapply roots_agree_after_markers, applyTheme_markers.
  - rewrite setTheme_eq. destruct (window (env s)); [|done].
    eapply roots_agree_after_markers.
    erewrite dark_markers_document; [apply applyTheme_markers|].
    apply localStorage_setItem_document.
  - pose proof (getStoredTheme_env s) as He.
    destruct (getStoredTheme s) as [[[t|]|e] s1] eqn:Hg; simpl in He.
    + rewrite (initTheme_stored _ _ _ Hg). simpl.
      eapply roots_agree_after_markers, applyTheme_markers.
    + pose proof (detectPreferredTheme_returns s1) as Hd.
      destruct (detectPreferredTheme s1) as [o s2] eqn:Hd'. simpl in Hd.
      subst o. rewrite (initTheme_unstored _ _ _ _ Hg Hd'). simpl.
      eapply roots_agree_after_markers.
      erewrite dark_markers_document; [apply applyTheme_markers|].
      apply guarded_setItem_document.
    + rewrite (initTheme_read_throws _ _ _ Hg). simpl. by rewrite He.
Qed.

(** C9: starting from a state where the root element and the body agree on
    the "dark" marker, they still agree after any sequence of calls to
    applyTheme, setTheme and initTheme. *)
Theorem roots_agree_invariant cs s :
  roots_agree (env s) → roots_agree (env (run_calls cs s)).
Proof.
  revert s. induction cs as [|c cs IH]; intros s Hs; simpl; [done|].
  apply IH. by apply exec_roots_agree.
Qed.

End ApplyTheme.

(** ** Reading and resolving the stored preference *)

Section Resolve.

(** The two recognised encodings, and nothing else, decode to a mode. *)
Lemma stored_mode_decoded (v : option string) m :
  (if bool_decide (v = Some "light") then Some light
   else if bool_decide (v = Some "dark") then Some dark else None) = Some m
  ↔ v = Some (encode m).
Proof.
  repeat case_bool_decide; subst; destruct m; simpl; split;
    intros; simplify_eq; done.
Qed.

(** X2: wherever the store can be read, getStoredTheme returns, and it
    returns a mode exactly when the stored value is that mode's encoding. *)
Lemma getStoredTheme_decodes s :
  storage_readable (env s) = true →
  ∃ r, (getStoredTheme s).1 = Return r ∧
       ∀ m, r = Some m ↔ stored_value (env s) = Some (encode m).
Proof.
  rewrite getStoredTheme_eq. unfold storage_readable, stored_value.
  destruct (window (env s)) as [w|]; simpl.
  - destruct (localStorage w) as [|st]; [done|]. intros _.
    eexists. split; [done|]. intros m. apply stored_mode_decoded.
  - intros _. exists None. split; [done|]. by intros m.
Qed.

Lemma getStoredTheme_valid s w st m :
  window (env s) = Some w → localStorage w = Granted st →
  items st !! THEME_STORAGE_KEY = Some (encode m) →
  getStoredTheme s =
  (Return (Some m),
   mkMachine (env s) (trace s ++ [EvGetItem THEME_STORAGE_KEY])).
Proof.
  intros Hw Hl Hv. rewrite getStoredTheme_eq, Hw, Hl. do 2 f_equal.
  by apply stored_mode_decoded.
Qed.

Lemma getStoredTheme_invalid s w st :
  window (env s) = Some w → localStorage w = Granted st →
  (∀ m, items st !! THEME_STORAGE_KEY ≠ Some (encode m)) →
  getStoredTheme s =
  (Return None,
   mkMachine (env s) (trace s ++ [EvGetItem THEME_STORAGE_KEY])).
Proof.
  intros Hw Hl Hv. rewrite getStoredTheme_eq, Hw, Hl. do 2 f_equal.
  pose proof (Hv light). pose proof (Hv dark).
  repeat case_bool_decide; done.
Qed.

Lemma applied_after_applyTheme m s e' :
  document e' = document (env (applyTheme m s).2) → applied e' m.
Proof.
  intros He. unfold applied.
  rewrite (dark_markers_document _ _ He), He, applyTheme_markers.
  pose proof (applyTheme_document_is_Some m s) as Hs.
  destruct (document (env s)) as [d|],
           (document (env (applyTheme m s).2)) as [d'|]; simpl; try done.
  - destruct Hs as [_ Hs]. destruct Hs as [x Hx]; [eauto|done].
  - destruct Hs as [Hs _]. destruct Hs as [x Hx]; [eauto|done].
Qed.

(** C4: when the value under the fixed key is absent or not a valid
    encoding, initTheme returns the mode detectPreferredTheme reports, applies
    it, and attempts to write that mode's encoding under the key, the setItem
    call being the last host call of the run.  If the store accepts the write
    the key then holds the encoding, the rest of the store as it was; if the
    store refuses it the failure is swallowed and the window keeps its
    store. *)
Theorem initTheme_falls_back_to_detected s w st :
  window (env s) = Some w →
  localStorage w = Granted st →
  (∀ m, items st !! THEME_STORAGE_KEY ≠ Some (encode m)) →
  let m := if matchMedia w "(prefers-color-scheme: dark)"
           then dark else light in
  let s' := (initTheme s).2 in
  (detectPreferredTheme s).1 = Return m ∧
  (initTheme s).1 = Return m ∧
  applied (env s') m ∧
  last (trace s') = Some (EvSetItem THEME_STORAGE_KEY (encode m)) ∧
  if accepts_writes st
  then stored_value (env s') = Some (encode m) ∧
       window (env s') =
         Some (mkWindow
                 (Granted (mkStorage
                             (<[THEME_STORAGE_KEY := encode m]> (items st))
                             true))
                 (matchMedia w))
  else window (env s') = window (env s).
Proof.
  intros Hw Hl Hv m s'.
  pose proof (getStoredTheme_invalid _ _ _ Hw Hl Hv) as Hg.
  set (s1 := mkMachine (env s) _) in Hg.
  pose proof (detectPreferredTheme_eq s1) as Hd. simpl in Hd.
  rewrite Hw in Hd. fold m in Hd.
  set (s2 := mkMachine (env s) _) in Hd.
  assert (Hi := initTheme_unstored _ _ _ _ Hg Hd).
  split; [rewrite detectPreferredTheme_returns; unfold prefers_dark;
          by rewrite Hw|].
  subst s'. rewrite Hi. simpl. split; [done|].
  unfold try_catch. rewrite localStorage_setItem_eq.
  rewrite applyTheme_window. simpl. rewrite Hw, Hl.
  destruct (accepts_writes st) eqn:Ha; simpl.
  - split; [by eapply applied_after_applyTheme|].
    split; [apply last_snoc|]. split; [|done].
    unfold stored_value. simpl. apply lookup_insert_eq.
  - split; [by eapply applied_after_applyTheme|].
    split; [apply last_snoc|]. by rewrite applyTheme_window.
Qed.

(** C5: when the value under the fixed key is the encoding of a mode m,
    initTheme returns m and applies it whatever the system signal is; the
    run neither queries the signal nor writes to the store, and the window
    (store included) is unchanged. *)
Theorem initTheme_prefers_stored s w st m :
  window (env s) = Some w →
  localStorage w = Granted st →
  items st !! THEME_STORAGE_KEY = Some (encode m) →
  let s' := (initTheme s).2 in
  (initTheme s).1 = Return m ∧
  applied (env s') m ∧
  window (env s') = window (env s) ∧
  stored_value (env s') = Some (encode m) ∧
  ∃ evs, appended s s' evs ∧
         Forall (λ ev, is_store_write ev = false ∧
                       is_signal_query ev = false) evs.
Proof.
  intros Hw Hl Hv s'.
  pose proof (getStoredTheme_valid _ _ _ _ Hw Hl Hv) as Hg.
  subst s'. rewrite (initTheme_stored _ _ _ Hg). simpl.
  split; [done|].
  split; [by eapply applied_after_applyTheme|].
  unfold stored_value. rewrite applyTheme_window. simpl.
  split; [done|]. split; [by rewrite Hw; simpl; rewrite Hl|].
  rewrite applyTheme_eq. unfold appended. simpl.
  destruct (document (env s)); simpl.
  - eexists. rewrite <- app_assoc. split; [done|].
    repeat constructor.
  - eexists. split; [done|]. repeat constructor.
Qed.

End Resolve.

(** ** Storage failures *)

Section StorageFailures.

(** X3: wherever the store can be read, initTheme returns a mode and the
    applied state shows that mode. *)
Lemma initTheme_returns_when_readable s :
  storage_readable (env s) = true →
  ∃ m, (initTheme s).1 = Return m ∧ applied (env (initTheme s).2) m.
Proof.
  intros Hr. pose proof (getStoredTheme_eq s) as Hg.
  unfold storage_readable in Hr.
  assert (∃ r s1, getStoredTheme s = (Return r, s1)) as (r & s1 & Hg').
  { destruct (window (env s)) as [w|]; [|eauto].
    destruct (localStorage w); [done|eauto]. }
  clear Hg. destruct r as [t|].
  - exists t. rewrite (initTheme_stored _ _ _ Hg'). simpl.
    split; [done|]. by eapply applied_after_applyTheme.
  - pose proof (detectPreferredTheme_returns s1) as Hd.
    destruct (detectPreferredTheme s1) as [o s2] eqn:Hd'. simpl in Hd.
    subst o. eexists. rewrite (initTheme_unstored _ _ _ _ Hg' Hd'). simpl.
    split; [done|]. eapply applied_after_applyTheme.
    apply guarded_setItem_document.
Qed.

(** X4: a write that fails inside initTheme is swallowed: the detected mode
    is still returned and applied, and the store keeps what it had. *)
Lemma initTheme_swallows_failed_write s w st :
  window (env s) = Some w →
  localStorage w = Granted st →
  accepts_writes st = false →
  (∀ m, items st !! THEME_STORAGE_KEY ≠ Some (encode m)) →
  let m := if matchMedia w "(prefers-color-scheme: dark)"
           then dark else light in
  (initTheme s).1 = Return m ∧
  applied (env (initTheme s).2) m ∧
  window (env (initTheme s).2) = window (env s).
Proof.
  intros Hw Hl Ha Hv m.
  pose proof (getStoredTheme_invalid _ _ _ Hw Hl Hv) as Hg.
  set (s1 := mkMachine (env s) _) in Hg.
  pose proof (detectPreferredTheme_eq s1) as Hd. simpl in Hd.
  rewrite Hw in Hd. fold m in Hd.
  rewrite (initTheme_unstored _ _ _ _ Hg Hd). simpl.
  split; [done|].
  unfold try_catch. rewrite localStorage_setItem_eq.
  rewrite applyTheme_window. simpl. rewrite Hw, Hl, Ha. simpl.
  split; [by eapply applied_after_applyTheme|].
  by rewrite applyTheme_window.
Qed.

(** Where the localStorage getter raises, so does getStoredTheme. *)
Lemma getStoredTheme_denied s w :
  window (env s) = Some w → localStorage w = Denied →
  getStoredTheme s = (Throw SecurityError, s).
Proof. intros Hw Hl. by rewrite getStoredTheme_eq, Hw, Hl. Qed.

(** X6: where the store refuses the write, setTheme raises after applyTheme
    took effect: the new theme is rendered, the stored preference is stale. *)
Lemma setTheme_refused_write m s w st :
  window (env s) = Some w →
  localStorage w = Granted st →
  accepts_writes st = false →
  let s1 := (applyTheme m s).2 in
  setTheme m s =
  (Throw QuotaExceededError,
   mkMachine (env s1)
     (trace s1 ++ [EvSetItem THEME_STORAGE_KEY (encode m)])).
Proof.
  intros Hw Hl Ha s1. rewrite setTheme_eq, Hw.
  rewrite localStorage_setItem_eq. fold s1.
  unfold s1 at 1. by rewrite applyTheme_window, Hw, Hl, Ha.
Qed.

(** detectPreferredTheme and applyTheme return in every machine state. *)
Lemma detect_and_apply_never_raise s theme :
  (∃ m, (detectPreferredTheme s).1 = Return m) ∧
  (applyTheme theme s).1 = Return ().
Proof.
  split; [rewrite detectPreferredTheme_returns; eauto|].
  apply applyTheme_returns.
Qed.

(** C1: where the localStorage getter raises (storage blocked for the page),
    initTheme does not return a mode: the SecurityError raised by the read
    in getStoredTheme leaves initTheme, before any theme is applied. *)
Theorem initTheme_raises_when_storage_denied :
  initTheme page_storage_denied = (Throw SecurityError, page_storage_denied).
Proof. apply initTheme_read_throws. by rewrite getStoredTheme_eq. Qed.

(** C2: where the store refuses the write, setTheme(dark) raises
    QuotaExceededError to its caller, after the marker was put on both root
    targets and with nothing stored under the key. *)
Theorem setTheme_raises_when_write_fails :
  (setTheme dark page_quota_exceeded).1 = Throw QuotaExceededError ∧
  dark_markers (env (setTheme dark page_quota_exceeded).2)
    = Some (true, true) ∧
  stored_value (env (setTheme dark page_quota_exceeded).2) = None.
Proof.
  repeat split; vm_compute; reflexivity.
Qed.

(** C3: where the localStorage getter raises, getStoredTheme raises
    SecurityError to its caller instead of returning null. *)
Theorem getStoredTheme_raises_when_storage_denied :
  getStoredTheme page_storage_denied =
  (Throw SecurityError, page_storage_denied).
Proof. by rewrite getStoredTheme_eq. Qed.

End StorageFailures.

(** ** setTheme *)

Section SetTheme.

(** C6: without a window setTheme does nothing.  With a window it first
    performs applyTheme(m) and then calls setItem for the encoding of m under
    the fixed key.  When the store accepts the write setTheme returns, and the
    machine is the one applyTheme(m) leaves with the key overwritten and the
    call logged last; when the store refuses the write the machine is the one
    applyTheme(m) leaves with the call logged and the store as it was; when
    the localStorage getter raises it is the one applyTheme(m) leaves. *)
Theorem setTheme_applies_then_persists m s :
  (window (env s) = None → setTheme m s = (Return (), s)) ∧
  (∀ w,
      window (env s) = Some w →
      let s1 := (applyTheme m s).2 in
      let call := EvSetItem THEME_STORAGE_KEY (encode m) in
      match localStorage w with
      | Granted st =>
          if accepts_writes st
          then
            setTheme m s =
            (Return (),
             mkMachine
               (mkEnv
                  (Some (mkWindow
                           (Granted
                              (mkStorage
                                 (<[THEME_STORAGE_KEY := encode m]> (items st))
                                 true))
                           (matchMedia w)))
                  (document (env s1)))
               (trace s1 ++ [call]))
          else (setTheme m s).2 = mkMachine (env s1) (trace s1 ++ [call])
      | Denied => (setTheme m s).2 = s1
      end).
Proof.
  split.
  - intros Hw. by rewrite setTheme_eq, Hw.
  - intros w Hw s1 call. rewrite setTheme_eq, Hw.
    rewrite localStorage_setItem_eq, !applyTheme_window, Hw.
    destruct (localStorage w) as [|st]; [done|].
    by destruct (accepts_writes st).
Qed.

End SetTheme.

(** ** Worked examples for the theme resolver *)

Section ThemeExamples.

Example initTheme_purple_store :
  let s' := (initTheme (page_with {[THEME_STORAGE_KEY := "purple"]} false)).2 in
  (initTheme (page_with {[THEME_STORAGE_KEY := "purple"]} false)).1
    = Return light ∧
  stored_value (env s') = Some "light" ∧
  dark_markers (env s') = Some (false, false).
Proof. repeat split; vm_compute; reflexivity. Qed.

Example initTheme_case_sensitive :
  (getStoredTheme (page_with {[THEME_STORAGE_KEY := "Dark"]} false)).1
    = Return None.
Proof. vm_compute; reflexivity. Qed.

Example initTheme_without_window :
  initTheme (mkMachine (mkEnv None None) []) =
  (Return light, mkMachine (mkEnv None None) []).
Proof. vm_compute; reflexivity. Qed.

Example initTheme_quota_exceeded_trace :
  trace (initTheme page_quota_exceeded).2 =
  [EvGetItem THEME_STORAGE_KEY; EvMatchMedia DARK_QUERY;
   EvToggleRoot "dark" false; EvToggleBody "dark" false;
   EvSetItem THEME_STORAGE_KEY "light"].
Proof. vm_compute; reflexivity. Qed.

(** Empty store, system preference dark: initTheme returns dark, both root
    targets carry the marker, and the store then holds "dark". *)
Lemma initTheme_falls_back_to_detected_witness :
  (initTheme (page_with ∅ true)).1 = Return dark ∧
  dark_markers (env (initTheme (page_with ∅ true)).2) = Some (true, true) ∧
  stored_value (env (initTheme (page_with ∅ true)).2) = Some "dark".
Proof.
  assert (∀ m, (∅ : gmap string string) !! THEME_STORAGE_KEY
               ≠ Some (encode m)) as Hv
      by (intros m; vm_compute; discriminate).
  destruct (initTheme_falls_back_to_detected (page_with ∅ true) _ _
              eq_refl eq_refl Hv) as (_ & Hr & Ha & _ & Hs & _).
  split; [exact Hr|]. split; [exact Ha|exact Hs].
Defined.

(** A readable store that holds "purple" and refuses the write: initTheme
    returns dark, and "purple" is still what the store holds. *)
Lemma initTheme_refused_write_keeps_purple :
  let s := page (Granted (mkStorage {[THEME_STORAGE_KEY := "purple"]} false))
             true in
  (initTheme s).1 = Return dark ∧
  stored_value (env (initTheme s).2) = Some "purple".
Proof. split; vm_compute; reflexivity. Qed.

(** A store that holds "light" and refuses the write: setTheme(dark) puts the
    marker on both root targets, and "light" is still what the store holds. *)
Lemma setTheme_refused_write_keeps_prior_value :
  let s := page (Granted (mkStorage {[THEME_STORAGE_KEY := "light"]} false))
             false in
  dark_markers (env (setTheme dark s).2) = Some (true, true) ∧
  stored_value (env (setTheme dark s).2) = Some "light".
Proof. split; vm_compute; reflexivity. Qed.

(** Store holding "dark", system preference light: initTheme returns dark
    and the store still holds "dark". *)
Lemma initTheme_prefers_stored_witness :
  let s := page_with {[THEME_STORAGE_KEY := "dark"]} false in
  (initTheme s).1 = Return dark ∧
  window (env (initTheme s).2) = window (env s).
Proof.
  intros s.
  assert (({[THEME_STORAGE_KEY := "dark"]} : gmap string string)
            !! THEME_STORAGE_KEY = Some (encode dark)) as Hv
      by (vm_compute; reflexivity).
  destruct (initTheme_prefers_stored s _ _ dark eq_refl eq_refl Hv)
    as (Hr & _ & Hw & _).
  split; [exact Hr|exact Hw].
Defined.

(** setTheme(dark) on a page whose store holds "light": the marker is set
    on both targets, then the store is overwritten with "dark". *)
Lemma setTheme_applies_then_persists_witness :
  let s := page_with {[THEME_STORAGE_KEY := "light"]} false in
  let s' := (setTheme dark s).2 in
  dark_markers (env s') = Some (true, true) ∧
  stored_value (env s') = Some "dark" ∧
  trace s' = [EvToggleRoot "dark" true; EvToggleBody "dark" true;
              EvSetItem THEME_STORAGE_KEY "dark"].
Proof.
  intros s s'. subst s'.
  rewrite (proj2 (setTheme_applies_then_persists dark s) _ eq_refl
           : setTheme dark s = _).
  repeat split; vm_compute; reflexivity.
Defined.

(** The root targets agree after initTheme, setTheme(light), applyTheme(dark)
    on a page in which storage is blocked. *)
Lemma roots_agree_invariant_witness :
  roots_agree
    (env (run_calls [CallInitTheme; CallSetTheme light; CallApplyTheme dark]
            page_storage_denied)).
Proof. apply roots_agree_invariant. vm_compute. reflexivity. Defined.

End ThemeExamples.

(** ** formatVectorLimit: null, zero and negative limits *)

Section VectorLimit.

Variable fmt : number → string.

(** C10: formatVectorLimit renders "<current> / Unlimited" when the limit
    is null, negative or equal to zero, and "<current> / <limit>" when the
    limit is strictly positive. *)
Theorem formatVectorLimit_unlimited_or_bounded current limit :
  ((limit = None ∨
    ∃ l, limit = Some l ∧ (SFltb l zero = true ∨ SFeqb l zero = true)) →
   formatVectorLimit fmt current limit
   = formatNumber fmt current +:+ " / Unlimited") ∧
  (∀ l, limit = Some l → SFltb zero l = true →
        formatVectorLimit fmt current limit
        = formatNumber fmt current +:+ " / " +:+ formatNumber fmt l).
Proof.
  split.
  - intros [->|(l & -> & Hl)]; [done|]. unfold formatVectorLimit.
    destruct Hl as [Hl|Hl].
    + by rewrite Hl, orb_true_r.
    + destruct l as [sg|sg| |sg mt ex]; simpl; try done.
      * by destruct sg.
      * by destruct sg.
  - intros l -> Hl. unfold formatVectorLimit.
    destruct l as [sg|sg| |sg mt ex]; simpl; try done.
    + by destruct sg.
    + by destruct sg.
Qed.

End VectorLimit.

Example formatVectorLimit_nan :
  formatVectorLimit plain_format zero (Some S754_nan) = "0 / Unlimited".
Proof. reflexivity. Qed.

Example formatVectorLimit_negative_zero :
  formatVectorLimit plain_format zero (Some (S754_zero true)) = "0 / Unlimited".
Proof. reflexivity. Qed.

Example formatVectorLimit_positive :
  formatVectorLimit plain_format zero (Some (S754_finite false 5 0))
  = "0 / n".
Proof. reflexivity. Qed.

(** A limit of exactly 0 is rendered as Unlimited. *)
Lemma formatVectorLimit_unlimited_or_bounded_witness :
  formatVectorLimit plain_format (S754_finite false 3 0) (Some zero)
  = "n / Unlimited".
Proof.
  apply (proj1 (formatVectorLimit_unlimited_or_bounded plain_format
                  (S754_finite false 3 0) (Some zero))).
  right. exists zero. split; [reflexivity|]. right. reflexivity.
Defined.

(** ** Further properties of lib/theme *)

Section ThemeMore.

Lemma toggle_overwrite token f1 f2 cl :
  toggle token f2 (toggle token f1 cl) = toggle token f2 cl.
Proof.
  unfold toggle. apply set_eq. intros x.
  destruct (decide (x = token)); destruct f1, f2; set_solver.
Qed.

Lemma toggle_same token force cl :
  (token ∈ cl ↔ force = true) → toggle token force cl = cl.
Proof.
  unfold toggle. intros H. apply set_eq. intros x.
  destruct (decide (x = token)); destruct force; set_solver.
Qed.

Lemma store_works_window e e' :
  window e' = window e → store_works e → store_works e'.
Proof. unfold store_works. by intros ->. Qed.

Lemma stored_value_window e e' :
  window e' = window e → stored_value e' = stored_value e.
Proof. unfold stored_value. by intros ->. Qed.

(** The write of a mode on a working store: it returns, the key holds the
    encoding, the document is untouched and the store keeps working. *)
Lemma setItem_on_working_store m s :
  store_works (env s) →
  let r := localStorage_setItem THEME_STORAGE_KEY (encode m) s in
  r.1 = Return () ∧
  stored_value (env r.2) = Some (encode m) ∧
  store_works (env r.2) ∧
  document (env r.2) = document (env s).
Proof.
  intros (w & st & Hw & Hl & Ha). simpl.
  rewrite localStorage_setItem_eq, Hw, Hl, Ha. simpl.
  split; [done|]. split; [apply lookup_insert_eq|].
  split; [|done]. by do 2 eexists.
Qed.

Lemma guarded_setItem_on_working_store m s :
  store_works (env s) →
  let r := try_catch (localStorage_setItem THEME_STORAGE_KEY (encode m))
             (mret ()) s in
  stored_value (env r.2) = Some (encode m) ∧
  store_works (env r.2) ∧
  document (env r.2) = document (env s).
Proof.
  intros Hs. destruct (setItem_on_working_store m s Hs) as (Hr & Hv & Hk & Hd).
  simpl in *. unfold try_catch.
  destruct (localStorage_setItem _ _ s) as [[[]|e] s1]; done.
Qed.

Lemma setTheme_on_working_store m s :
  store_works (env s) →
  (setTheme m s).1 = Return () ∧
  applied (env (setTheme m s).2) m ∧
  stored_value (env (setTheme m s).2) = Some (encode m) ∧
  store_works (env (setTheme m s).2).
Proof.
  intros Hs. rewrite setTheme_eq.
  destruct Hs as (w & st & Hw & Hl & Ha). rewrite Hw.
  assert (store_works (env (applyTheme m s).2)) as Hs1.
  { eapply store_works_window; [apply applyTheme_window|].
    by exists w, st. }
  destruct (setItem_on_working_store m _ Hs1) as (Hr & Hv & Hk & Hd).
  repeat split; try done. by eapply applied_after_applyTheme.
Qed.

(** A readable store holding the encoding of [m]: initTheme returns [m] and
    leaves the window as it is. *)
Lemma initTheme_reads_valid s m :
  stored_value (env s) = Some (encode m) →
  (initTheme s).1 = Return m ∧
  applied (env (initTheme s).2) m ∧
  window (env (initTheme s).2) = window (env s).
Proof.
  unfold stored_value. intros Hv.
  destruct (window (env s)) as [w|] eqn:Hw; [|done]. simpl in Hv.
  destruct (localStorage w) as [|st] eqn:Hl; [done|].
  pose proof (getStoredTheme_valid _ _ _ _ Hw Hl Hv) as Hg.
  rewrite (initTheme_stored _ _ _ Hg). simpl.
  split; [done|]. split; [by eapply applied_after_applyTheme|].
  by rewrite applyTheme_window.
Qed.

Lemma initTheme_on_working_store s :
  store_works (env s) →
  ∃ m, (initTheme s).1 = Return m ∧
       applied (env (initTheme s).2) m ∧
       stored_value (env (initTheme s).2) = Some (encode m) ∧
       store_works (env (initTheme s).2).
Proof.
  intros Hs. pose proof Hs as (w & st & Hw & Hl & Ha).
  pose proof (getStoredTheme_eq s) as Hg. rewrite Hw, Hl in Hg. simpl in Hg.
  set (s1 := mkMachine (env s) _) in Hg.
  destruct (if bool_decide (items st !! THEME_STORAGE_KEY = Some "light")
            then Some light
            else if bool_decide (items st !! THEME_STORAGE_KEY = Some "dark")
                 then Some dark else None) as [m|] eqn:Hdec.
  - apply stored_mode_decoded in Hdec.
    assert (stored_value (env s) = Some (encode m)) as Hv.
    { unfold stored_value. by rewrite Hw; simpl; rewrite Hl. }
    destruct (initTheme_reads_valid _ _ Hv) as (Hr & Hap & Hwin).
    exists m. repeat split; try done.
    + by rewrite (stored_value_window _ _ Hwin).
    + by eapply store_works_window.
  - pose proof (detectPreferredTheme_returns s1) as Hd.
    destruct (detectPreferredTheme s1) as [o s2] eqn:Hd'. simpl in Hd.
    pose proof (detectPreferredTheme_env s1) as He. rewrite Hd' in He.
    simpl in He. subst o. eexists.
    rewrite (initTheme_unstored _ _ _ _ Hg Hd'). simpl.
    match goal with |- context [applyTheme ?t s2] => set (m := t) end.
    assert (store_works (env (applyTheme m s2).2)) as Hs3.
    { eapply store_works_window; [apply applyTheme_window|]. by rewrite He. }
    destruct (guarded_setItem_on_working_store m _ Hs3) as (Hv & Hk & Hdoc).
    repeat split; try done. by eapply applied_after_applyTheme.
Qed.

Lemma stored_value_reload s signal d :
  stored_value (env (reload s signal d)) = stored_value (env s).
Proof. unfold stored_value, reload. simpl. by destruct (window (env s)). Qed.

(** X1: detectPreferredTheme always returns; the mode is dark exactly when a
    window exists and its dark-scheme media query matches, light otherwise;
    the environment is left as it was. *)
Theorem detectPreferredTheme_reads_signal s :
  ∃ m s', detectPreferredTheme s = (Return m, s') ∧
          env s' = env s ∧
          (m = dark ↔ prefers_dark (env s) = true) ∧
          (window (env s) = None → m = light ∧ s' = s).
Proof.
  rewrite detectPreferredTheme_eq. unfold prefers_dark.
  destruct (window (env s)) as [w|]; do 2 eexists; (split; [done|]); simpl.
  - split; [done|]. split; [|done].
    by destruct (matchMedia w _).
  - repeat split; done.
Qed.

(** X5: without a window initTheme returns light, applies it to the document
    if there is one, and swallows the ReferenceError of the storage write:
    its whole effect is that of applyTheme(light). *)
Theorem initTheme_no_window_applies_light s :
  window (env s) = None →
  initTheme s = (Return light, (applyTheme light s).2).
Proof.
  intros Hw.
  assert (getStoredTheme s = (Return None, s)) as Hg
      by (by rewrite getStoredTheme_eq, Hw).
  assert (detectPreferredTheme s = (Return light, s)) as Hd
      by (by rewrite detectPreferredTheme_eq, Hw).
  rewrite (initTheme_unstored _ _ _ _ Hg Hd). f_equal.
  unfold try_catch. rewrite localStorage_setItem_eq.
  by rewrite applyTheme_window, Hw.
Qed.

(** X7: with a window whose localStorage getter raises, getStoredTheme and
    initTheme raise SecurityError and change nothing, and setTheme raises it
    after applyTheme took effect. *)
Theorem storage_denied_raises s w m :
  window (env s) = Some w →
  localStorage w = Denied →
  getStoredTheme s = (Throw SecurityError, s) ∧
  initTheme s = (Throw SecurityError, s) ∧
  setTheme m s = (Throw SecurityError, (applyTheme m s).2).
Proof.
  intros Hw Hl.
  assert (getStoredTheme s = (Throw SecurityError, s)) as Hg
      by (by rewrite getStoredTheme_eq, Hw, Hl).
  split; [done|]. split; [by apply initTheme_read_throws|].
  rewrite setTheme_eq, Hw, localStorage_setItem_eq.
  by rewrite applyTheme_window, Hw, Hl.
Qed.

(** X8: after setTheme(m) on a working store, initTheme on a later page load
    returns m and applies it, whatever the system signal then reports. *)
Theorem setTheme_then_initTheme m s signal d :
  store_works (env s) →
  let s' := reload (setTheme m s).2 signal d in
  (initTheme s').1 = Return m ∧ applied (env (initTheme s').2) m.
Proof.
  intros Hs s'.
  destruct (setTheme_on_working_store m s Hs) as (_ & _ & Hv & _).
  assert (stored_value (env s') = Some (encode m)) as Hv'
      by (subst s'; by rewrite stored_value_reload).
  destruct (initTheme_reads_valid _ _ Hv') as (Hr & Ha & _). done.
Qed.

(** X9: on a working store the last setTheme wins: setTheme(a) followed by
    setTheme(b) leaves the same environment as setTheme(b) alone. *)
Theorem setTheme_last_wins a b s :
  store_works (env s) →
  env ((setTheme a;; setTheme b) s).2 = env (setTheme b s).2.
Proof.
  intros (w & st & Hw & Hl & Ha). unfold_monad.
  destruct s as [[w0 dc] tr]. simpl in Hw. subst w0.
  rewrite (setTheme_eq a (mkMachine _ _)), (setTheme_eq b (mkMachine _ _)).
  simpl. rewrite !localStorage_setItem_eq, !applyTheme_window. simpl.
  rewrite Hl, Ha. simpl. rewrite setTheme_eq. simpl.
  rewrite localStorage_setItem_eq, applyTheme_window. simpl.
  rewrite insert_insert_eq. f_equal.
  rewrite !applyTheme_eq. simpl.
  destruct dc as [dc|]; simpl; [|done].
  by rewrite !toggle_overwrite.
Qed.

(** X10: the applied state depends on the last applyTheme only:
    applyTheme(a) followed by applyTheme(b) leaves the same environment as
    applyTheme(b) alone. *)
Theorem applyTheme_last_wins a b s :
  env ((applyTheme a;; applyTheme b) s).2 = env (applyTheme b s).2.
Proof.
  destruct s as [[w [dc|]] tr]; unfold_monad;
    rewrite (applyTheme_eq a (mkMachine _ _)); simpl;
    rewrite ?applyTheme_eq; simpl; [|done].
  by rewrite !toggle_overwrite.
Qed.

(** X11: on a working store the first initTheme fixes the preference: on any
    later page load initTheme returns the same mode, even if the system
    signal has changed. *)
Theorem initTheme_pins_preference s :
  store_works (env s) →
  ∃ m, (initTheme s).1 = Return m ∧
       ∀ signal d, (initTheme (reload (initTheme s).2 signal d)).1 = Return m.
Proof.
  intros Hs.
  destruct (initTheme_on_working_store s Hs) as (m & Hr & _ & Hv & _).
  exists m. split; [done|]. intros signal d.
  eapply initTheme_reads_valid. by rewrite stored_value_reload.
Qed.

End ThemeMore.

(** ** What a sequence of calls leaves alone *)

Section CallFrames.

Lemma store_frame_window e e' : window e' = window e → store_frame e e'.
Proof.
  unfold store_frame. intros ->.
  destruct (window e) as [w|]; [|done].
  exists w. split; [done|]. split; [done|].
  destruct (localStorage w) as [|st]; [done|].
  exists st. repeat split; auto.
Qed.

Lemma store_frame_trans e1 e2 e3 :
  store_frame e1 e2 → store_frame e2 e3 → store_frame e1 e3.
Proof.
  unfold store_frame. intros H12 H23.
  destruct (window e1) as [w1|]; [|by rewrite H12 in H23].
  destruct H12 as (w2 & Hw2 & Hm2 & H12). rewrite Hw2 in H23.
  destruct H23 as (w3 & Hw3 & Hm3 & H23).
  exists w3. split; [done|]. split; [congruence|].
  destruct (localStorage w1) as [|st1]; [by rewrite H12 in H23|].
  destruct H12 as (st2 & Hl2 & Ha2 & Hk2 & Hv2). rewrite Hl2 in H23.
  destruct H23 as (st3 & Hl3 & Ha3 & Hk3 & Hv3).
  exists st3. split; [done|]. split; [congruence|]. split.
  - intros k Hk. rewrite Hk3, Hk2; done.
  - destruct Hv3 as [Hv3|Hv3]; [|by right].
    rewrite Hv3. done.
Qed.

Lemma setItem_store_frame m s :
  store_frame (env s)
    (env (localStorage_setItem THEME_STORAGE_KEY (encode m) s).2).
Proof.
  rewrite localStorage_setItem_eq. unfold store_frame.
  destruct (window (env s)) as [w|] eqn:Hw; simpl; [|done].
  destruct (localStorage w) as [|st] eqn:Hl; simpl.
  - rewrite Hw. exists w. by rewrite Hl.
  - destruct (accepts_writes st) eqn:Ha; simpl.
    + eexists. split; [done|]. split; [done|]. simpl.
      eexists. split; [done|]. simpl. split; [done|]. split.
      * intros k Hk. by rewrite lookup_insert_ne.
      * right. exists m. apply lookup_insert_eq.
    + rewrite Hw. exists w. rewrite Hl. split; [done|]. split; [done|].
      exists st. repeat split; auto.
Qed.

Lemma guarded_setItem_store_frame m s :
  store_frame (env s)
    (env (try_catch (localStorage_setItem THEME_STORAGE_KEY (encode m))
            (mret ()) s).2).
Proof.
  pose proof (setItem_store_frame m s) as H. unfold try_catch.
  by destruct (localStorage_setItem _ _ s) as [[[]|e] s1].
Qed.

Lemma exec_store_frame c s : store_frame (env s) (env (exec c s)).
Proof.
  destruct c as [m|m|]; simpl.
  - apply store_frame_window, applyTheme_window.
  - rewrite setTheme_eq.
    destruct (window (env s)) eqn:Hw; [|by apply store_frame_window].
    eapply store_frame_trans; [|apply setItem_store_frame].
    apply store_frame_window, applyTheme_window.
  - pose proof (getStoredTheme_env s) as He.
    destruct (getStoredTheme s) as [[[t|]|e] s1] eqn:Hg; simpl in He.
    + rewrite (initTheme_stored _ _ _ Hg). simpl.
      apply store_frame_window. by rewrite applyTheme_window, He.
    + pose proof (detectPreferredTheme_returns s1) as Hd.
      pose proof (detectPreferredTheme_env s1) as He1.
      destruct (detectPreferredTheme s1) as [o s2] eqn:Hd'. simpl in *.
      subst o. rewrite (initTheme_unstored _ _ _ _ Hg Hd'). simpl.
      eapply store_frame_trans; [|apply guarded_setItem_store_frame].
      apply store_frame_window. by rewrite applyTheme_window, He1, He.
    + rewrite (initTheme_read_throws _ _ _ Hg). simpl.
      apply store_frame_window. by rewrite He.
Qed.

(** X12: whatever sequence of applyTheme, setTheme and initTheme calls runs,
    the window keeps its matchMedia and its storage access, the store keeps
    every key other than "vectorlab-theme", and the value under that key is
    either the one it had or the encoding of a mode. *)
Theorem calls_keep_store_frame cs s :
  store_frame (env s) (env (run_calls cs s)).
Proof.
  revert s. induction cs as [|c cs IH]; intros s; simpl.
  - by apply store_frame_window.
  - eapply store_frame_trans; [apply exec_store_frame|apply IH].
Qed.

Lemma classes_frame_document e e' :
  document e' = document e → classes_frame e e'.
Proof.
  unfold classes_frame. intros ->.
  destruct (document e) as [d|]; [|done]. by exists d.
Qed.

Lemma classes_frame_trans e1 e2 e3 :
  classes_frame e1 e2 → classes_frame e2 e3 → classes_frame e1 e3.
Proof.
  unfold classes_frame. intros H12 H23.
  destruct (document e1) as [d1|]; [|by rewrite H12 in H23].
  destruct H12 as (d2 & Hd2 & H12). rewrite Hd2 in H23.
  destruct H23 as (d3 & Hd3 & H23).
  exists d3. split; [done|]. intros t Ht.
  destruct (H12 t Ht) as [Ha Hb]. destruct (H23 t Ht) as [Hc Hd].
  split; [by rewrite Hc|by rewrite Hd].
Qed.

Lemma applyTheme_classes_frame m s :
  classes_frame (env s) (env (applyTheme m s).2).
Proof.
  rewrite applyTheme_eq. unfold classes_frame.
  destruct (document (env s)) as [d|] eqn:Hd; simpl; [|done].
  eexists. split; [done|]. simpl. intros t Ht.
  split; by apply toggle_other.
Qed.

Lemma exec_classes_frame c s : classes_frame (env s) (env (exec c s)).
Proof.
  destruct c as [m|m|]; simpl.
  - apply applyTheme_classes_frame.
  - rewrite setTheme_eq.
    destruct (window (env s)); [|by apply classes_frame_document].
    eapply classes_frame_trans; [apply applyTheme_classes_frame|].
    apply classes_frame_document, localStorage_setItem_document.
  - pose proof (getStoredTheme_env s) as He.
    destruct (getStoredTheme s) as [[[t|]|e] s1] eqn:Hg; simpl in He.
    + rewrite (initTheme_stored _ _ _ Hg). simpl.
      eapply classes_frame_trans; [|apply applyTheme_classes_frame].
      apply classes_frame_document. by rewrite He.
    + pose proof (detectPreferredTheme_returns s1) as Hd.
      pose proof (detectPreferredTheme_env s1) as He1.
      destruct (detectPreferredTheme s1) as [o s2] eqn:Hd'. simpl in *.
      subst o. rewrite (initTheme_unstored _ _ _ _ Hg Hd'). simpl.
      eapply classes_frame_trans;
        [|apply classes_frame_document, guarded_setItem_document].
      eapply classes_frame_trans; [|apply applyTheme_classes_frame].
      apply classes_frame_document. by rewrite He1, He.
    + rewrite (initTheme_read_throws _ _ _ Hg). simpl.
      apply classes_frame_document. by rewrite He.
Qed.

(** X13: whatever sequence of calls runs, a document stays a document and no
    class other than "dark" is added to or removed from the root element or
    the body. *)
Theorem calls_keep_other_classes cs s :
  classes_frame (env s) (env (run_calls cs s)).
Proof.
  revert s. induction cs as [|c cs IH]; intros s; simpl.
  - by apply classes_frame_document.
  - eapply classes_frame_trans; [apply exec_classes_frame|apply IH].
Qed.

End CallFrames.

(** ** The ThemeToggle component on a working store *)

Section ToggleSync.

Lemma applyTheme_document m s :
  document (env (applyTheme m s).2) =
  (λ d, mkDocument
          (toggle "dark" (bool_decide (m = dark)) (documentElement_classList d))
          (toggle "dark" (bool_decide (m = dark)) (body_classList d)))
    <$> document (env s).
Proof. rewrite applyTheme_eq. by destruct s as [[w [d|]] tr]. Qed.

Lemma setTheme_env_on_working_store m s w st :
  window (env s) = Some w →
  localStorage w = Granted st →
  accepts_writes st = true →
  env (setTheme m s).2 =
  mkEnv
    (Some (mkWindow
             (Granted (mkStorage (<[THEME_STORAGE_KEY := encode m]> (items st))
                         true))
             (matchMedia w)))
    (document (env (applyTheme m s).2)).
Proof.
  intros Hw Hl Ha. rewrite setTheme_eq, Hw, localStorage_setItem_eq.
  by rewrite applyTheme_window, Hw, Hl, Ha.
Qed.

Lemma applied_document_fixed m e d :
  document e = Some d → applied e m →
  mkDocument
    (toggle "dark" (bool_decide (m = dark)) (documentElement_classList d))
    (toggle "dark" (bool_decide (m = dark)) (body_classList d)) = d.
Proof.
  unfold applied, dark_markers. intros Hd. rewrite Hd. simpl.
  intros [= Hr Hb]. destruct d as [r b]. simpl in *. f_equal.
  - apply toggle_same. rewrite <- Hr. symmetry. apply bool_decide_eq_true.
  - apply toggle_same. rewrite <- Hb. symmetry. apply bool_decide_eq_true.
Qed.

Lemma mount_on_working_store s :
  store_works (env s) →
  in_sync (mount_effect (first_render s)) ∧
  store_works (env (browser (mount_effect (first_render s)))).
Proof.
  intros Hs. unfold mount_effect, first_render, in_sync. simpl.
  destruct (initTheme_on_working_store s Hs) as (m & Hr & Ha & Hv & Hk).
  destruct (initTheme s) as [o s1]. simpl in *. by subst o.
Qed.

Lemma handleToggle_on_working_store ui :
  store_works (env (browser ui)) →
  in_sync (handleToggle ui) ∧ store_works (env (browser (handleToggle ui))).
Proof.
  intros Hs. unfold handleToggle, in_sync. simpl.
  set (nextMode := if bool_decide (mode ui = light) then dark else light).
  destruct (setTheme_on_working_store nextMode _ Hs) as (_ & Ha & Hv & Hk).
  done.
Qed.

(** X14: on a page with a working store, after the component has mounted and
    the button was clicked any number of times, the mode the button shows is
    the mode applied to the document and the mode stored under the key. *)
Theorem toggle_stays_in_sync n s :
  store_works (env s) →
  in_sync (after_clicks n s) ∧ store_works (env (browser (after_clicks n s))).
Proof.
  intros Hs. unfold after_clicks. induction n as [|n [_ IH]]; simpl.
  - by apply mount_on_working_store.
  - by apply handleToggle_on_working_store.
Qed.

(** X15: on a working store, when the button's mode, the applied theme and
    the stored preference agree, two clicks bring back the same mode and the
    same environment (class lists and store). *)
Theorem toggle_twice_restores ui :
  store_works (env (browser ui)) →
  in_sync ui →
  mode (handleToggle (handleToggle ui)) = mode ui ∧
  env (browser (handleToggle (handleToggle ui))) = env (browser ui).
Proof.
  intros (w & st & Hw & Hl & Ha) [Hap Hv].
  split; [unfold handleToggle; simpl; by destruct (mode ui)|].
  unfold handleToggle at 1. simpl.
  set (m1 := if bool_decide (mode ui = light) then dark else light).
  assert ((if bool_decide (m1 = light) then dark else light) = mode ui) as ->
      by (subst m1; by destruct (mode ui)).
  pose proof (setTheme_env_on_working_store m1 _ _ _ Hw Hl Ha) as H1.
  erewrite setTheme_env_on_working_store;
    [|by rewrite H1|done|done].
  simpl. rewrite insert_insert_eq, applyTheme_document, H1. simpl.
  rewrite applyTheme_document.
  destruct (browser ui) as [[w0 dc] tr]. simpl in *. subst w0.
  assert (<[THEME_STORAGE_KEY:=encode (mode ui)]> (items st) = items st) as ->.
  { apply insert_id. unfold stored_value in Hv. simpl in Hv.
    by rewrite Hl in Hv. }
  assert (mkWindow (Granted (mkStorage (items st) true)) (matchMedia w) = w)
    as ->.
  { destruct w as [ls mm]. simpl in *. subst ls. destruct st as [its aw].
    simpl in *. by subst aw. }
  f_equal. destruct dc as [d|]; simpl; [|done]. f_equal.
  rewrite !toggle_overwrite.
  by eapply (applied_document_fixed _ (mkEnv (Some w) (Some d))).
Qed.

End ToggleSync.

(** ** formatVectorLimit on every limit *)

Section VectorLimitSign.

Variable fmt : number → string.

(** X16: formatVectorLimit shows the limit exactly when it is a number above
    zero (+Infinity included); null, NaN, both zeros and every negative
    number (-Infinity included) give "<current> / Unlimited". *)
Theorem formatVectorLimit_by_sign current limit :
  formatVectorLimit fmt current limit =
  match limit with
  | Some l =>
      if SFltb zero l
      then formatNumber fmt current +:+ " / " +:+ formatNumber fmt l
      else formatNumber fmt current +:+ " / Unlimited"
  | None => formatNumber fmt current +:+ " / Unlimited"
  end.
Proof.
  unfold formatVectorLimit. destruct limit as [l|]; [|done].
  destruct l as [sg|sg| |sg mt ex]; simpl; try done.
  - by destruct sg.
  - by destruct sg.
Qed.

End VectorLimitSign.

(** ** The top-up prompt *)

Section TopUp.

Local Open Scope list_scope.

Lemma digit_not_white_space c : is_digit c = true → is_white_space c = false.
Proof.
  unfold is_digit. intros H.
  apply andb_true_iff in H as [H1 H2].
  apply N.leb_le in H1, H2.
  assert (c ∈ [48; 49; 50; 51; 52; 53; 54; 55; 56; 57]%N) as Hc.
  { rewrite !elem_of_cons. lia. }
  rewrite !elem_of_cons in Hc.
  repeat (destruct Hc as [->|Hc]; [by vm_compute|]).
  by apply elem_of_nil in Hc.
Qed.

Lemma trim_start_app ws s :
  Forall (λ c, is_white_space c = true) ws →
  trim_start (ws ++ s) = trim_start s.
Proof. induction 1 as [|c ws Hc _ IH]; simpl; [done|]. by rewrite Hc. Qed.

Lemma leading_digits_app ds rest :
  Forall (λ c, is_digit c = true) ds →
  match rest with [] => True | c :: _ => is_digit c = false end →
  leading_digits (ds ++ rest) = ds.
Proof.
  intros Hds Hrest. induction Hds as [|c ds Hc _ IH]; simpl.
  - destruct rest as [|c rest]; [done|]. simpl. by rewrite Hrest.
  - by rewrite Hc, IH.
Qed.

Lemma decimal_value_snoc ds c :
  decimal_value (ds ++ [c]) = (10 * decimal_value ds + digit_value c)%Z.
Proof. unfold decimal_value. by rewrite foldl_snoc. Qed.

Lemma decimal_value_nonneg ds : (0 ≤ decimal_value ds)%Z.
Proof.
  induction ds as [|c ds IH] using rev_ind; [done|].
  rewrite decimal_value_snoc. unfold digit_value. lia.
Qed.

Lemma handleTopUpClick_nonempty v :
  v ≠ [] →
  handleTopUpClick (Some v) =
  if is_nan (parseInt10 v) || SFleb (parseInt10 v) zero
  then TopUpToastError "Enter a positive integer quantity"
  else TopUpMutate (parseInt10 v).
Proof. by destruct v. Qed.

(** A Number is neither NaN nor at most zero exactly when it is above zero. *)
Lemma above_zero_iff q :
  is_nan q || SFleb q zero = false ↔ SFltb zero q = true.
Proof. destruct q as [sg|sg| |sg mt ex]; simpl; try done; by destruct sg. Qed.

(** *** The double for an integer keeps its sign *)

Lemma digits2_pos_le p : (2 ^ (Z.pos (digits2_pos p) - 1) ≤ Z.pos p)%Z.
Proof.
  induction p as [p IH|p IH|]; simpl; [| |done].
  - rewrite Pos2Z.inj_succ.
    replace (Z.succ (Z.pos (digits2_pos p)) - 1)%Z
      with (Z.succ (Z.pos (digits2_pos p) - 1))%Z by lia.
    rewrite Z.pow_succ_r by lia. lia.
  - rewrite Pos2Z.inj_succ.
    replace (Z.succ (Z.pos (digits2_pos p)) - 1)%Z
      with (Z.succ (Z.pos (digits2_pos p) - 1))%Z by lia.
    rewrite Z.pow_succ_r by lia. lia.
Qed.

Lemma shr_1_m r : (0 ≤ shr_m r)%Z → shr_m (shr_1 r) = (shr_m r / 2)%Z.
Proof.
  destruct r as [m rb sb]. simpl. intros Hm.
  destruct m as [|p|p]; [done| |lia].
  destruct p as [p|p|]; simpl.
  - apply Z.div_unique with 1%Z; lia.
  - apply Z.div_unique with 0%Z; lia.
  - done.
Qed.

Lemma iter_pos_shr_m p : ∀ r,
  (0 ≤ shr_m r)%Z →
  shr_m (SpecFloat.iter_pos shr_1 p r) = (shr_m r / 2 ^ Z.pos p)%Z.
Proof.
  assert (∀ r, (0 ≤ shr_m r)%Z → (0 ≤ shr_m (shr_1 r))%Z) as Hnn.
  { intros r Hr. rewrite shr_1_m by done. apply Z.div_pos; lia. }
  induction p as [p IH|p IH|]; intros r Hr; simpl.
  - assert (0 < 2 ^ Z.pos p)%Z as Hp by (apply Z.pow_pos_nonneg; lia).
    rewrite IH, IH, shr_1_m; auto.
    + rewrite !Z.div_div by lia. f_equal.
      replace (Z.pos p~1) with (Z.pos p + Z.pos p + 1)%Z by lia.
      rewrite !Z.pow_add_r by lia. ring.
    + rewrite IH by auto. apply Z.div_pos; [auto|lia].
  - assert (0 < 2 ^ Z.pos p)%Z as Hp by (apply Z.pow_pos_nonneg; lia).
    rewrite IH, IH; auto.
    + rewrite !Z.div_div by lia. f_equal.
      replace (Z.pos p~0) with (Z.pos p + Z.pos p)%Z by lia.
      by rewrite !Z.pow_add_r by lia.
    + rewrite IH by auto. apply Z.div_pos; [auto|lia].
  - rewrite shr_1_m by done. by rewrite Z.pow_1_r.
Qed.

Lemma fexp_ge_emin e : (emin 53 1024 ≤ fexp 53 1024 e)%Z.
Proof. unfold fexp. lia. Qed.

(** The shift of [shr_fexp] leaves a positive mantissa positive. *)
Lemma shr_fexp_positive p e l :
  (emin 53 1024 ≤ e)%Z →
  ∃ q rb sb e', shr_fexp 53 1024 (Z.pos p) e l
                = (Build_shr_record (Z.pos q) rb sb, e') ∧ (e ≤ e')%Z.
Proof.
  intros He. unfold shr_fexp, shr. simpl Zdigits2.
  set (k := (fexp 53 1024 (Z.pos (digits2_pos p) + e) - e)%Z).
  assert (k < Z.pos (digits2_pos p))%Z as Hk.
  { subst k. unfold fexp. unfold emin in *. lia. }
  set (r0 := shr_record_of_loc (Z.pos p) l).
  assert (shr_m r0 = Z.pos p) as Hr0 by (subst r0; by destruct l as [|[]]).
  destruct k as [|n|n] eqn:Ek.
  - destruct r0 as [m rb sb]. simpl in Hr0. subst m.
    do 4 eexists. split; [done|]. lia.
  - pose proof (iter_pos_shr_m n r0) as Hm. rewrite Hr0 in Hm.
    specialize (Hm ltac:(lia)).
    assert (1 ≤ Z.pos p / 2 ^ Z.pos n)%Z as Hpos.
    { pose proof (digits2_pos_le p) as Hd.
      assert (0 < 2 ^ Z.pos n)%Z by (apply Z.pow_pos_nonneg; lia).
      apply Z.div_le_lower_bound; [lia|]. rewrite Z.mul_1_r.
      etrans; [|exact Hd]. apply Z.pow_le_mono_r; lia. }
    destruct (SpecFloat.iter_pos shr_1 n r0) as [m rb sb]. simpl in Hm.
    destruct m as [|q|q]; try lia.
    do 4 eexists. split; [done|]. lia.
  - destruct r0 as [m rb sb]. simpl in Hr0. subst m.
    do 4 eexists. split; [done|]. lia.
Qed.

Lemma binary_round_aux_positive sx p e l :
  (emin 53 1024 ≤ e)%Z →
  binary_round_aux 53 1024 sx (Z.pos p) e l = S754_infinity sx ∨
  ∃ m e', binary_round_aux 53 1024 sx (Z.pos p) e l = S754_finite sx m e'.
Proof.
  intros He. unfold binary_round_aux.
  destruct (shr_fexp_positive p e l He) as (q & rb & sb & e1 & -> & He1).
  cbn [shr_m].
  assert (∃ q', round_nearest_even (Z.pos q)
                  (loc_of_shr_record (Build_shr_record (Z.pos q) rb sb))
                = Z.pos q') as [q' ->].
  { destruct rb, sb; simpl; eauto. destruct q; simpl; eauto. }
  destruct (shr_fexp_positive q' e1 loc_Exact ltac:(lia))
    as (q2 & rb2 & sb2 & e2 & -> & He2).
  cbn [shr_m].
  match goal with |- context [Z.leb ?a ?b] => destruct (Z.leb a b) end; eauto.
Qed.

Lemma binary_round_positive sx p :
  binary_round 53 1024 sx p 0 = S754_infinity sx ∨
  ∃ m e, binary_round 53 1024 sx p 0 = S754_finite sx m e.
Proof.
  unfold binary_round.
  destruct (shl_align p 0 _) as [mz ez] eqn:Hal.
  apply binary_round_aux_positive.
  unfold shl_align in Hal.
  pose proof (fexp_ge_emin (Z.pos (digits2_pos p) + 0)) as Hf.
  destruct (_ - 0)%Z eqn:Hd; inversion Hal; subst;
    first [exact Hf | unfold emin; lia].
Qed.

Lemma number_of_Z_positive n :
  (0 < n)%Z →
  is_nan (number_of_Z n) = false ∧ SFleb (number_of_Z n) zero = false.
Proof.
  intros Hn. destruct n as [|p|p]; try lia. unfold number_of_Z. simpl.
  destruct (binary_round_positive false p) as [->|(m & e & ->)]; done.
Qed.

Lemma number_of_Z_negative n :
  (n < 0)%Z → SFleb (number_of_Z n) zero = true.
Proof.
  intros Hn. destruct n as [|p|p]; try lia. unfold number_of_Z. simpl.
  destruct (binary_round_positive true p) as [->|(m & e & ->)]; done.
Qed.

(** The parse of an optional sign and a run of digits followed by anything
    that is not a digit. *)
Lemma parseInt10_leading_digits ws (sg : option bool) ds rest :
  Forall (λ c, is_white_space c = true) ws →
  ds ≠ [] →
  Forall (λ c, is_digit c = true) ds →
  match rest with [] => True | c :: _ => is_digit c = false end →
  parseInt10
    (ws ++ match sg with
           | None => []
           | Some false => [43%N]
           | Some true => [45%N]
           end ++ ds ++ rest) =
  if bool_decide (decimal_value ds = 0%Z)
  then S754_zero (bool_decide (sg = Some true))
  else number_of_Z ((if bool_decide (sg = Some true) then -1 else 1)
                    * decimal_value ds).
Proof.
  intros Hws Hne Hds Hrest.
  destruct ds as [|d ds]; [done|].
  assert (is_digit d = true) as Hd by (by inversion Hds).
  pose proof (digit_not_white_space d Hd) as Hdw.
  unfold parseInt10. rewrite trim_start_app by done.
  pose proof (leading_digits_app (d :: ds) rest Hds Hrest) as Hl.
  assert (d ≠ 43%N ∧ d ≠ 45%N) as [H43 H45].
  { unfold is_digit in Hd. apply andb_true_iff in Hd as [H1 H2].
    apply N.leb_le in H1, H2. lia. }
  destruct sg as [[|]|].
  - change (trim_start ([45%N] ++ (d :: ds) ++ rest))
      with ((45%N :: (d :: ds) ++ rest)).
    rewrite (bool_decide_eq_true_2
               (head (45%N :: (d :: ds) ++ rest) = Some 45%N)) by done.
    rewrite (bool_decide_eq_true_2 (45%N = 43%N ∨ 45%N = 45%N))
      by (by right).
    rewrite Hl.
    rewrite (bool_decide_eq_true_2 ((-1)%Z = (-1)%Z)) by done.
    by rewrite (bool_decide_eq_true_2 (Some true = Some true)) by done.
  - change (trim_start ([43%N] ++ (d :: ds) ++ rest))
      with ((43%N :: (d :: ds) ++ rest)).
    rewrite (bool_decide_eq_false_2
               (head (43%N :: (d :: ds) ++ rest) = Some 45%N))
      by (simpl; by intros [=]).
    rewrite (bool_decide_eq_true_2 (43%N = 43%N ∨ 43%N = 45%N))
      by (by left).
    rewrite Hl.
    rewrite (bool_decide_eq_false_2 (1%Z = (-1)%Z)) by done.
    by rewrite (bool_decide_eq_false_2 (Some false = Some true)) by done.
  - change (trim_start ([] ++ (d :: ds) ++ rest))
      with (if is_white_space d then trim_start (ds ++ rest)
            else d :: ds ++ rest).
    rewrite Hdw.
    rewrite (bool_decide_eq_false_2 (d = 43%N ∨ d = 45%N)) by tauto.
    rewrite (bool_decide_eq_false_2 (head (d :: ds ++ rest) = Some 45%N))
      by (simpl; intros [=]; done).
    change (d :: ds ++ rest) with ((d :: ds) ++ rest).
    rewrite Hl.
    rewrite (bool_decide_eq_false_2 (1%Z = (-1)%Z)) by done.
    by rewrite (bool_decide_eq_false_2 (None = Some true)) by done.
Qed.

(** X17: handleTopUpClick calls topUp.mutate(q) exactly when the prompt
    returned a string whose Number.parseInt value q is above zero: a parse
    that is NaN, a zero or negative never reaches the purchase, and every
    parse above zero (Infinity included) does. *)
Theorem handleTopUpClick_mutates_positive value quantity :
  handleTopUpClick value = TopUpMutate quantity ↔
  ∃ v, value = Some v ∧ parseInt10 v = quantity ∧ SFltb zero quantity = true.
Proof.
  split.
  - destruct value as [[|c v]|]; [done| |done].
    rewrite handleTopUpClick_nonempty by done.
    destruct (is_nan _ || SFleb _ zero) eqn:Hq; [done|].
    intros [= <-]. exists (c :: v). by apply above_zero_iff in Hq.
  - intros (v & -> & <- & Hq). apply above_zero_iff in Hq.
    destruct v as [|c v]; [done|].
    rewrite handleTopUpClick_nonempty by done. by rewrite Hq.
Qed.

(** X18: handleTopUpClick does nothing at all exactly when the prompt was
    cancelled or left empty; every other input ends in the error toast or in
    a purchase. *)
Theorem handleTopUpClick_nothing_iff value :
  handleTopUpClick value = TopUpNothing ↔ value = None ∨ value = Some [].
Proof.
  split.
  - destruct value as [[|c v]|]; [by right| |by left].
    rewrite handleTopUpClick_nonempty by done.
    by destruct (is_nan _ || SFleb _ zero).
  - by intros [->| ->].
Qed.

(** X19: only the leading number of the input counts: after optional white
    space and an optional sign, a run of digits followed by anything that is
    not a digit is read as that integer.  With a "-" or when the digits denote
    zero the input is refused with the error toast; otherwise topUp.mutate
    receives the double nearest to the integer (Infinity for very long runs of
    digits). *)
Theorem handleTopUpClick_reads_leading_digits ws (sg : option bool) ds rest :
  Forall (λ c, is_white_space c = true) ws →
  ds ≠ [] →
  Forall (λ c, is_digit c = true) ds →
  match rest with [] => True | c :: _ => is_digit c = false end →
  handleTopUpClick
    (Some (ws ++ match sg with
                 | None => []
                 | Some false => [43%N]
                 | Some true => [45%N]
                 end ++ ds ++ rest)) =
  if bool_decide (sg = Some true) || bool_decide (decimal_value ds = 0%Z)
  then TopUpToastError "Enter a positive integer quantity"
  else TopUpMutate (number_of_Z (decimal_value ds)).
Proof.
  intros Hws Hne Hds Hrest.
  rewrite handleTopUpClick_nonempty
    by (destruct ds; [done|]; by destruct ws, sg as [[|]|]).
  rewrite (parseInt10_leading_digits ws sg ds rest) by done.
  pose proof (decimal_value_nonneg ds) as Hnn.
  case_bool_decide as Hz.
  - rewrite orb_true_r. by destruct (bool_decide (sg = Some true)).
  - rewrite orb_false_r. case_bool_decide as Hs.
    + by rewrite number_of_Z_negative, orb_true_r by lia.
    + rewrite Z.mul_1_l.
      destruct (number_of_Z_positive (decimal_value ds)) as [-> ->]; [lia|].
      done.
Qed.

End TopUp.

(** ** The usage percentages *)

Section Percent.

Variable round : number → number.

Lemma SFcompare_self_not_Lt a : SFcompare a a ≠ Some Lt.
Proof.
  destruct a as [sg|sg| |sg mt ex]; simpl; try done.
  - by destruct sg.
  - rewrite Z.compare_refl, Pos.compare_cont_refl. by destruct sg.
Qed.

Lemma Math_min_not_above a b : SFltb a (Math_min a b) = false.
Proof.
  assert (SFltb a a = false) as Haa.
  { unfold SFltb. pose proof (SFcompare_self_not_Lt a) as Ha.
    by destruct (SFcompare a a) as [[| |]|]. }
  unfold Math_min.
  destruct (SFcompare a b) as [[| |]|] eqn:Hc.
  - assert (match a, b with
            | S754_zero _, S754_zero true => b
            | _, _ => a
            end = a ∨
            match a, b with
            | S754_zero _, S754_zero true => b
            | _, _ => a
            end = b) as [-> | ->].
    { destruct a, b as [[|]| | |]; auto. }
    + done.
    + unfold SFltb. by rewrite Hc.
  - done.
  - unfold SFltb. by rewrite Hc.
  - by destruct a.
Qed.

(** X20: the vector and project percentages are never above 100, whatever
    the counts and limits are and whatever Math.round yields (NaN and
    infinities included). *)
Theorem percent_never_above_100 usage :
  SFltb hundred (vectorPercent round usage) = false ∧
  SFltb hundred (projectPercent round usage) = false.
Proof.
  unfold vectorPercent, projectPercent.
  destruct usage as [[tv [vl|] pc [pl|]]|]; simpl;
    repeat match goal with
           | |- context [truthy ?l] => destruct (truthy l)
           end;
    split; try done; apply Math_min_not_above.
Qed.

End Percent.

Example vectorPercent_quarter :
  vectorPercent (λ x, x)
    (Some (mkUsage (S754_finite false 7036874417766400 (-47))
             (Some (S754_finite false 7036874417766400 (-45))) zero None))
  = S754_finite false 7036874417766400 (-48).
Proof. vm_compute. reflexivity. Qed.

Example vectorPercent_zero_limit :
  vectorPercent (λ x, x)
    (Some (mkUsage (S754_finite false 7036874417766400 (-47))
             (Some zero) zero None))
  = zero.
Proof. reflexivity. Qed.

Example parseInt10_examples :
  parseInt10 (js "1.5") = number_of_Z 1 ∧
  parseInt10 (js "  42abc") = number_of_Z 42 ∧
  parseInt10 (js "-3") = number_of_Z (-3) ∧
  parseInt10 (js "+7") = number_of_Z 7 ∧
  parseInt10 (js "abc") = S754_nan ∧
  parseInt10 (js "   ") = S754_nan ∧
  parseInt10 (js "-0") = S754_zero true.
Proof. repeat split; vm_compute; reflexivity. Qed.

(** Above 2^53 the parse is rounded to a double, and a long enough run of
    digits gives Infinity. *)
Example parseInt10_rounds :
  parseInt10 (js "9007199254740993") = number_of_Z 9007199254740992 ∧
  parseInt10 (js "1" ++ repeat 48%N 400)%list = S754_infinity false ∧
  handleTopUpClick (Some (js "1" ++ repeat 48%N 400)%list)
  = TopUpMutate (S754_infinity false).
Proof. repeat split; vm_compute; reflexivity. Qed.

Example handleTopUpClick_examples :
  handleTopUpClick None = TopUpNothing ∧
  handleTopUpClick (Some (js "")) = TopUpNothing ∧
  handleTopUpClick (Some (js " ")) =
    TopUpToastError "Enter a positive integer quantity" ∧
  handleTopUpClick (Some (js "0")) =
    TopUpToastError "Enter a positive integer quantity" ∧
  handleTopUpClick (Some (js "-2")) =
    TopUpToastError "Enter a positive integer quantity" ∧
  handleTopUpClick (Some (js "3 million")) = TopUpMutate (number_of_Z 3).
Proof. repeat split; vm_compute; reflexivity. Qed.

(** ** Worked instances *)

Section Instances.

Local Open Scope list_scope.

Lemma page_with_works its system_dark :
  store_works (env (page_with its system_dark)).
Proof. do 2 eexists. repeat split. Qed.

Lemma getStoredTheme_decodes_witness :
  ∃ r, (getStoredTheme (page_with {[THEME_STORAGE_KEY := "dark"]} false)).1
       = Return r ∧
       ∀ m, r = Some m ↔
            stored_value (env (page_with {[THEME_STORAGE_KEY := "dark"]} false))
            = Some (encode m).
Proof. apply getStoredTheme_decodes. reflexivity. Defined.

Lemma initTheme_returns_when_readable_witness :
  ∃ m, (initTheme windowless).1 = Return m ∧
       applied (env (initTheme windowless).2) m.
Proof. apply initTheme_returns_when_readable. reflexivity. Defined.

Lemma initTheme_swallows_failed_write_witness :
  (initTheme page_quota_exceeded).1 = Return light ∧
  applied (env (initTheme page_quota_exceeded).2) light ∧
  window (env (initTheme page_quota_exceeded).2)
  = window (env page_quota_exceeded).
Proof.
  apply (initTheme_swallows_failed_write page_quota_exceeded _ _
           eq_refl eq_refl eq_refl).
  intros m. vm_compute. discriminate.
Defined.

Lemma initTheme_no_window_applies_light_witness :
  initTheme windowless = (Return light, (applyTheme light windowless).2).
Proof. apply initTheme_no_window_applies_light. reflexivity. Defined.

Lemma setTheme_refused_write_witness :
  (setTheme dark page_quota_exceeded).1 = Throw QuotaExceededError.
Proof.
  rewrite (setTheme_refused_write dark page_quota_exceeded _ _
             eq_refl eq_refl eq_refl).
  reflexivity.
Defined.

Lemma storage_denied_raises_witness :
  let s := page_storage_denied in
  getStoredTheme s = (Throw SecurityError, s) ∧
  initTheme s = (Throw SecurityError, s) ∧
  setTheme dark s = (Throw SecurityError, (applyTheme dark s).2).
Proof.
  apply (storage_denied_raises page_storage_denied _ dark eq_refl eq_refl).
Defined.

(** setTheme(dark), then a page load on which the system prefers light. *)
Lemma setTheme_then_initTheme_witness :
  let s' := reload (setTheme dark (page_with ∅ false)).2 (λ _, false) None in
  (initTheme s').1 = Return dark.
Proof.
  apply (setTheme_then_initTheme dark (page_with ∅ false) (λ _, false) None).
  apply page_with_works.
Defined.

Lemma setTheme_last_wins_witness :
  env ((setTheme dark;; setTheme light) (page_with ∅ true)).2
  = env (setTheme light (page_with ∅ true)).2.
Proof. apply setTheme_last_wins, page_with_works. Defined.

(** First load with a dark system preference; later loads return dark. *)
Lemma initTheme_pins_preference_witness :
  ∃ m, (initTheme (page_with ∅ true)).1 = Return m ∧
       ∀ signal d,
         (initTheme (reload (initTheme (page_with ∅ true)).2 signal d)).1
         = Return m.
Proof. apply initTheme_pins_preference, page_with_works. Defined.

Lemma toggle_stays_in_sync_witness :
  in_sync (after_clicks 3 (page_with {[THEME_STORAGE_KEY := "purple"]} true)).
Proof.
  apply (toggle_stays_in_sync 3
           (page_with {[THEME_STORAGE_KEY := "purple"]} true)).
  apply page_with_works.
Defined.

Lemma toggle_twice_restores_witness :
  let ui := mkUI light (page_with {[THEME_STORAGE_KEY := "light"]} true) in
  mode (handleToggle (handleToggle ui)) = mode ui ∧
  env (browser (handleToggle (handleToggle ui))) = env (browser ui).
Proof.
  intros ui. apply toggle_twice_restores.
  - apply page_with_works.
  - split; vm_compute; reflexivity.
Defined.

Lemma handleTopUpClick_mutates_positive_witness :
  ∃ v, Some (js "3 million") = Some v ∧
       parseInt10 v = number_of_Z 3 ∧
       SFltb zero (number_of_Z 3) = true.
Proof.
  apply (proj1 (handleTopUpClick_mutates_positive (Some (js "3 million"))
                  (number_of_Z 3))).
  vm_compute. reflexivity.
Defined.

(** " +12.5" is read as 12. *)
Lemma handleTopUpClick_reads_leading_digits_witness :
  handleTopUpClick (Some (js " " ++ [43%N] ++ js "12" ++ js ".5"))
  = TopUpMutate (number_of_Z 12).
Proof.
  apply (handleTopUpClick_reads_leading_digits (js " ") (Some false)
           (js "12") (js ".5")).
  - repeat constructor.
  - discriminate.
  - repeat constructor.
  - reflexivity.
Defined.

End Instances.
